(** * Todo API and view-model: ownership scoping, partial updates, filters

    Shallow embedding of [src/worker/routes/todo-routes.ts] (the five route
    handlers of [todoRoutes] and their two zod schemas), of the table
    declaration [todos] (drizzle schema and its SQL migration) and of the
    derived views of [src/src/components/todo-list.tsx].

    The table is a list of rows in insertion order.  Every handler is a
    computation in a small database monad: it threads the table and may
    throw (a violated PRIMARY KEY constraint).  What the environment decides
    during a request, the reading of the clock ([new Date()]) and the result
    of [crypto.randomUUID()], is an explicit argument.  Strings are
    sequences of code units, so [String.length] is JavaScript's [.length]. *)

From Stdlib Require Import List String Ascii ZArith Bool Lia.
From Stdlib Require Import Permutation Sorted.
Import ListNotations.
Local Open Scope string_scope.
Local Open Scope Z_scope.

(** ** Data model *)

(** A row of [todos]; also the [Todo] type of the client.  [createdAt] and
    [updatedAt] are columns [integer(..., { mode: "timestamp" })]: the row
    holds whole seconds. *)
Record Todo := mkTodo {
  id : string;
  userId : string;
  title : string;
  completed : bool;
  createdAt : Z;
  updatedAt : Z
}.

(** The session user that [c.get("user")] yields; only [user.id] is read. *)
Record User := mkUser { user_id : string }.

(** The table [todos], rows in insertion order. *)
Definition Store := list Todo.

(** A parsed JSON request body. *)
#[local] Unset Elimination Schemes.
Inductive json :=
| JNull
| JBool (b : bool)
| JNum (n : Z)
| JStr (s : string)
| JArr (items : list json)
| JObj (fields : list (string * json)).
#[local] Set Elimination Schemes.

(** Property read [obj[key]]: [None] is [undefined].  When a key is written
    twice in a JSON text the later value wins. *)
Fixpoint get_field (key : string) (fields : list (string * json)) : option json :=
  match fields with
  | [] => None
  | (k, v) :: rest =>
      match get_field key rest with
      | Some w => Some w
      | None => if String.eqb k key then Some v else None
      end
  end.

(** What a handler passes to [c.json]. *)
Inductive Payload :=
| ErrorMessage (error : string)
| TodoArray (rows : list Todo)
| TodoObject (row : option Todo)
| SuccessTrue
| ValidationIssues
| NotFoundText
| InternalServerErrorText.

Record Response := mkResponse { status : Z; payload : Payload }.

Definition c_json (p : Payload) (code : Z) : Response := mkResponse code p.

(** ** The relational store *)

(** Outcome of a statement or of a handler: a value, or a thrown error. *)
Inductive Outcome (A : Type) :=
| Returned (a : A)
| Thrown.
Arguments Returned {A} a.
Arguments Thrown {A}.

Definition DB (A : Type) : Type := Store -> Outcome A * Store.

Definition ret {A} (a : A) : DB A := fun s => (Returned a, s).

Definition bind {A B} (m : DB A) (k : A -> DB B) : DB B :=
  fun s =>
    match m s with
    | (Returned a, s') => k a s'
    | (Thrown, s') => (Thrown, s')
    end.

Notation "x <- m ;; k" := (bind m (fun x => k))
  (at level 61, m at next level, right associativity).
Notation "m ;;; k" := (bind m (fun _ => k))
  (at level 61, right associativity).

(** [integer(..., { mode: "timestamp" })] writes a [Date] as
    [Math.floor(date.getTime() / 1000)]. *)
Definition to_seconds (date : Z) : Z := date / 1000.

(** [eq(todos.id, v)], [eq(todos.userId, v)], [eq(todos.completed, true)]
    and [and(p, q)]. *)
Definition eq_id (v : string) (t : Todo) : bool := String.eqb (id t) v.
Definition eq_userId (v : string) (t : Todo) : bool := String.eqb (userId t) v.
Definition eq_completed (v : bool) (t : Todo) : bool := Bool.eqb (completed t) v.
Definition and_ (p q : Todo -> bool) (t : Todo) : bool := p t && q t.


(** [.orderBy(desc(todos.createdAt))]: the selected rows sorted by
    [createdAt], largest first.  The source fixes no order among rows with
    equal [createdAt]; here they keep their table order. *)
Fixpoint insert_desc (t : Todo) (l : list Todo) : list Todo :=
  match l with
  | [] => [t]
  | x :: rest =>
      if createdAt x <=? createdAt t then t :: x :: rest
      else x :: insert_desc t rest
  end.

Definition order_by_desc_createdAt (l : list Todo) : list Todo :=
  fold_right insert_desc [] l.

(** [.limit(n)] *)
Definition limit (n : nat) (l : list Todo) : list Todo := firstn n l.

(** [db.select().from(todos).where(p)] followed by [.orderBy(...)] or
    [.limit(...)], here [clause]. *)
Definition select_from_where (p : Todo -> bool)
    (clause : list Todo -> list Todo) : DB (list Todo) :=
  fun s => (Returned (clause (filter p s)), s).

(** [db.insert(todos).values(row)]: [id] is the PRIMARY KEY, a second row
    with the same [id] makes the statement throw and changes nothing. *)
Definition insert_values (row : Todo) : DB unit :=
  fun s =>
    if existsb (eq_id (id row)) s then (Thrown, s)
    else (Returned tt, (s ++ [row])%list).

(** [db.update(todos).set(f).where(p)] *)
Definition update_set_where (f : Todo -> Todo) (p : Todo -> bool) : DB unit :=
  fun s => (Returned tt, map (fun t => if p t then f t else t) s).

(** [db.delete(todos).where(p)] *)
Definition delete_where (p : Todo -> bool) : DB unit :=
  fun s => (Returned tt, filter (fun t => negb (p t)) s).

(** ** Request validation *)

(** [z.string().min(1).max(500)] *)
Definition z_string_min1_max500 (v : json) : option string :=
  match v with
  | JStr s =>
      if (1 <=? String.length s)%nat && (String.length s <=? 500)%nat
      then Some s else None
  | _ => None
  end.

(** [z.boolean()] *)
Definition z_boolean (v : json) : option bool :=
  match v with
  | JBool b => Some b
  | _ => None
  end.

(** [schema.optional()]: [undefined] is accepted and stays [undefined]. *)
Definition z_optional {A} (schema : json -> option A) (v : option json)
  : option (option A) :=
  match v with
  | None => Some None
  | Some w => option_map Some (schema w)
  end.

(** [createTodoSchema]: an object whose [title] is a string of length 1 to
    500; other keys are dropped. *)
Definition createTodoSchema (body : json) : option string :=
  match body with
  | JObj fields =>
      match get_field "title" fields with
      | Some v => z_string_min1_max500 v
      | None => None
      end
  | _ => None
  end.

(** The validated patch: the keys of [updates] that are present. *)
Record Updates := mkUpdates {
  upd_title : option string;
  upd_completed : option bool
}.

(** [updateTodoSchema]: both keys optional. *)
Definition updateTodoSchema (body : json) : option Updates :=
  match body with
  | JObj fields =>
      match z_optional z_string_min1_max500 (get_field "title" fields),
            z_optional z_boolean (get_field "completed" fields) with
      | Some t, Some c => Some (mkUpdates t c)
      | _, _ => None
      end
  | _ => None
  end.

(** [.set({ ...updates, updatedAt: new Date() })]: only the keys present in
    [updates] and [updatedAt] are assigned. *)
Definition set_updates (updates : Updates) (date : Z) (t : Todo) : Todo :=
  mkTodo (id t) (userId t)
         (match upd_title updates with Some v => v | None => title t end)
         (match upd_completed updates with Some v => v | None => completed t end)
         (createdAt t)
         (to_seconds date).

(** ** The route handlers of [todoRoutes] *)

(** [zValidator("json", schema)]: a body the schema rejects is answered
    with 400 and the handler does not run. *)
Definition zValidator {A} (schema : json -> option A) (body : json)
    (handler : A -> DB Response) : DB Response :=
  match schema body with
  | None => ret (c_json ValidationIssues 400)
  | Some data => handler data
  end.

(** [.get("/", ...)] *)
Definition get_handler (user : option User) : DB Response :=
  match user with
  | None => ret (c_json (ErrorMessage "Unauthorized") 401)
  | Some user =>
      userTodos <- select_from_where (eq_userId (user_id user))
                     order_by_desc_createdAt ;;
      ret (c_json (TodoArray userTodos) 200)
  end.

(** [.post("/", zValidator("json", createTodoSchema), ...)]; [uuid] is the
    result of [crypto.randomUUID()] and [date] that of [new Date()]. *)
Definition post_handler (user : option User) (body : json)
    (uuid : string) (date : Z) : DB Response :=
  zValidator createTodoSchema body (fun title =>
    match user with
    | None => ret (c_json (ErrorMessage "Unauthorized") 401)
    | Some user =>
        let id := uuid in
        let now := date in
        insert_values (mkTodo id (user_id user) title false
                              (to_seconds now) (to_seconds now)) ;;;
        newTodo <- select_from_where (eq_id id) (limit 1) ;;
        ret (c_json (TodoObject (hd_error newTodo)) 201)
    end).

(** [.patch("/:id", zValidator("json", updateTodoSchema), ...)] *)
Definition patch_handler (user : option User) (id : string) (body : json)
    (date : Z) : DB Response :=
  zValidator updateTodoSchema body (fun updates =>
    match user with
    | None => ret (c_json (ErrorMessage "Unauthorized") 401)
    | Some user =>
        todo <- select_from_where
                  (and_ (eq_id id) (eq_userId (user_id user))) (limit 1) ;;
        if (List.length todo =? 0)%nat
        then ret (c_json (ErrorMessage "Todo not found") 404)
        else
          update_set_where (set_updates updates date) (eq_id id) ;;;
          updatedTodo <- select_from_where (eq_id id) (limit 1) ;;
          ret (c_json (TodoObject (hd_error updatedTodo)) 200)
    end).

(** [.delete("/:id", ...)] *)
Definition delete_handler (user : option User) (id : string) : DB Response :=
  match user with
  | None => ret (c_json (ErrorMessage "Unauthorized") 401)
  | Some user =>
      todo <- select_from_where
                (and_ (eq_id id) (eq_userId (user_id user))) (limit 1) ;;
      if (List.length todo =? 0)%nat
      then ret (c_json (ErrorMessage "Todo not found") 404)
      else
        delete_where (eq_id id) ;;;
        ret (c_json SuccessTrue 200)
  end.

(** [.delete("/completed", ...)] *)
Definition delete_completed_handler (user : option User) : DB Response :=
  match user with
  | None => ret (c_json (ErrorMessage "Unauthorized") 401)
  | Some user =>
      delete_where (and_ (eq_userId (user_id user)) (eq_completed true)) ;;;
      ret (c_json SuccessTrue 200)
  end.

(** ** Routing *)

Inductive Method := GET | POST | PATCH | DELETE.

Definition Method_eqb (a b : Method) : bool :=
  match a, b with
  | GET, GET | POST, POST | PATCH, PATCH | DELETE, DELETE => true
  | _, _ => false
  end.

(** A segment of a route pattern: a literal, or [:name]. *)
Inductive Segment :=
| Literal (s : string)
| Param (name : string).

(** The five handlers, named by their registration. *)
Inductive Handler :=
| GetRoot
| PostRoot
| PatchId
| DeleteId
| DeleteCompleted.

(** The routes of [todoRoutes] in the order of registration.  A path is the
    list of its segments below the mount point [/todos]. *)
Definition todoRoutes_table : list (Method * list Segment * Handler) :=
  [ (GET, [], GetRoot);
    (POST, [], PostRoot);
    (PATCH, [Param "id"], PatchId);
    (DELETE, [Param "id"], DeleteId);
    (DELETE, [Literal "completed"], DeleteCompleted) ].

(** Matching a path against a pattern binds the parameters. *)
Fixpoint match_path (pattern : list Segment) (path : list string)
  : option (list (string * string)) :=
  match pattern, path with
  | [], [] => Some []
  | Literal s :: pattern', seg :: path' =>
      if String.eqb s seg then match_path pattern' path' else None
  | Param name :: pattern', seg :: path' =>
      if String.eqb seg EmptyString then None
      else option_map (cons (name, seg)) (match_path pattern' path')
  | _, _ => None
  end.

(** The handler that answers: every handler above returns a response and
    none calls [next], so it is the first registered route that matches. *)
Fixpoint find_route (table : list (Method * list Segment * Handler))
    (method : Method) (path : list string)
  : option (Handler * list (string * string)) :=
  match table with
  | [] => None
  | (m, pattern, h) :: table' =>
      if Method_eqb m method then
        match match_path pattern path with
        | Some params => Some (h, params)
        | None => find_route table' method path
        end
      else find_route table' method path
  end.

(** [c.req.param(name)]; the routes that read a parameter bind it. *)
Fixpoint req_param (name : string) (params : list (string * string)) : string :=
  match params with
  | [] => EmptyString
  | (k, v) :: params' => if String.eqb k name then v else req_param name params'
  end.

(** One invocation of a handler: the context it reads and what the
    environment returns to it. *)
Record Context := mkContext {
  c_user : option User;
  c_params : list (string * string);
  c_body : json;
  c_uuid : string;
  c_date : Z
}.

Definition run_handler (h : Handler) (c : Context) : DB Response :=
  match h with
  | GetRoot => get_handler (c_user c)
  | PostRoot => post_handler (c_user c) (c_body c) (c_uuid c) (c_date c)
  | PatchId =>
      patch_handler (c_user c) (req_param "id" (c_params c)) (c_body c) (c_date c)
  | DeleteId => delete_handler (c_user c) (req_param "id" (c_params c))
  | DeleteCompleted => delete_completed_handler (c_user c)
  end.

(** Modelled from the spec: the middleware [authenticatedOnly] of
    [../middleware/auth], registered by [.use("*", authenticatedOnly)], is
    not among the sources.  A request without a resolved caller identity is
    answered with Unauthenticated (401) for every operation; any other
    request goes on to the routes. *)
Definition authenticatedOnly (user : option User) (next : DB Response)
  : DB Response :=
  match user with
  | None => ret (c_json (ErrorMessage "Unauthorized") 401)
  | Some _ => next
  end.

Record Request := mkRequest {
  req_method : Method;
  req_path : list string;
  req_user : option User;
  req_body : json
}.

(** [todoRoutes] as mounted by [.route("/todos", todoRoutes)]. *)
Definition todoRoutes (req : Request) (uuid : string) (date : Z) : DB Response :=
  authenticatedOnly (req_user req)
    match find_route todoRoutes_table (req_method req) (req_path req) with
    | Some (h, params) =>
        run_handler h (mkContext (req_user req) params (req_body req) uuid date)
    | None => ret (c_json NotFoundText 404)
    end.

(** The response sent and the table left behind; a handler that throws is
    answered with 500. *)
Definition respond (m : DB Response) (s : Store) : Response * Store :=
  match m s with
  | (Returned r, s') => (r, s')
  | (Thrown, s') => (c_json InternalServerErrorText 500, s')
  end.

(** ** The client view-model of [TodoList] *)

Inductive Filter := all | active | completed_.

(** [filteredTodos] *)
Definition filteredTodos (todos : list Todo) (filter_ : Filter) : list Todo :=
  filter (fun todo =>
            match filter_ with
            | active => negb (completed todo)
            | completed_ => completed todo
            | all => true
            end) todos.

(** [activeTodoCount] and [completedTodoCount] *)
Definition activeTodoCount (todos : list Todo) : nat :=
  List.length (filter (fun t => negb (completed t)) todos).

Definition completedTodoCount (todos : list Todo) : nat :=
  List.length (filter (fun t => completed t) todos).

(** ** The client actions of [TodoList] *)

(** [handleToggle]: the variables [{ id, updates }] it hands to
    [updateMutation.mutate]. *)
Definition handleToggle (todo : Todo) : string * json :=
  (id todo, JObj [("completed", JBool (negb (completed todo)))]).

(** [String.prototype.trim]; which code units are white space is the
    argument [ws]. *)
Fixpoint trimStart (ws : ascii -> bool) (s : string) : string :=
  match s with
  | EmptyString => EmptyString
  | String ch rest => if ws ch then trimStart ws rest else s
  end.

Fixpoint trimEnd (ws : ascii -> bool) (s : string) : string :=
  match s with
  | EmptyString => EmptyString
  | String ch rest =>
      match trimEnd ws rest with
      | EmptyString => if ws ch then EmptyString else String ch EmptyString
      | kept => String ch kept
      end
  end.

Definition trim (ws : ascii -> bool) (s : string) : string :=
  trimEnd ws (trimStart ws s).

(** [handleAddTodo]: the title it hands to [createMutation.mutate], [None]
    when it submits nothing (the trimmed input is the empty string, which is
    falsy). *)
Definition handleAddTodo (ws : ascii -> bool) (newTodo : string) : option string :=
  match trim ws newTodo with
  | EmptyString => None
  | title => Some title
  end.

(** The body [json: { title }] that [createMutation] posts. *)
Definition createMutation_json (title : string) : json :=
  JObj [("title", JStr title)].

(** ** Specification vocabulary *)

(** [id] is the PRIMARY KEY of [todos]. *)
Definition unique_ids (s : Store) : Prop := NoDup (map id s).

(** The rows a response carries. *)
Definition returned_todos (r : Response) : list Todo :=
  match payload r with
  | TodoArray rows => rows
  | TodoObject (Some row) => [row]
  | _ => []
  end.

(** [createdAt] descending, most recent first. *)
Definition most_recent_first (a b : Todo) : Prop := createdAt b <= createdAt a.

(** The tables that a sequence of handler invocations, by any callers and
    with any bodies, identifiers and clock readings, can build from the
    empty table. *)
Inductive reachable : Store -> Prop :=
| reachable_empty : reachable []
| reachable_step (s : Store) (h : Handler) (c : Context) :
    reachable s -> reachable (snd (respond (run_handler h c) s)).

(** The same, when the clock never moves backwards from one invocation to
    the next; the index is the latest reading. *)
Inductive reachable_at : Z -> Store -> Prop :=
| reachable_at_start (clock : Z) : reachable_at clock []
| reachable_at_step (clock : Z) (s : Store) (h : Handler) (c : Context) :
    reachable_at clock s -> clock <= c_date c ->
    reachable_at (c_date c) (snd (respond (run_handler h c) s)).

(** The clock reading at which each [id] was created, the latest creation
    first. *)
Definition Births := list (string * Z).

Fixpoint born_at (births : Births) (v : string) : option Z :=
  match births with
  | [] => None
  | (k, date) :: rest => if String.eqb k v then Some date else born_at rest v
  end.

(** Only Create makes the table longer; the row it adds has the identifier
    and the clock reading of the invocation. *)
Definition births_after (births : Births) (h : Handler) (c : Context)
    (s : Store) : Births :=
  if (List.length s <? List.length (snd (respond (run_handler h c) s)))%nat
  then (c_uuid c, c_date c) :: births
  else births.

(** The invocation updates row [t] of [s]: afterwards the table has a row
    with the [id] of [t], and [t] as it was is gone. *)
Definition updated_by (h : Handler) (c : Context) (s : Store) (t : Todo) : Prop :=
  In t s
  /\ ~ In t (snd (respond (run_handler h c) s))
  /\ In (id t) (map id (snd (respond (run_handler h c) s))).

(** The tables reachable when the clock does not move backwards between the
    creation of a row and an update of that row.  Nothing else is asked of
    the clock: it may be set back between the creations of two rows, or
    between the updates of different rows. *)
Inductive reachable_born : Births -> Store -> Prop :=
| reachable_born_start : reachable_born [] []
| reachable_born_step (births : Births) (s : Store) (h : Handler) (c : Context) :
    reachable_born births s ->
    (forall t date0,
        updated_by h c s t -> born_at births (id t) = Some date0 ->
        date0 <= c_date c) ->
    reachable_born (births_after births h c s)
                   (snd (respond (run_handler h c) s)).

(** The invariant of those tables: the key constraint, and for every row
    the reading of the clock at its creation, of which [createdAt] is the
    seconds. *)
Definition born_rows (births : Births) (s : Store) : Prop :=
  unique_ids s
  /\ forall t, In t s ->
       exists date0, born_at births (id t) = Some date0
                     /\ createdAt t = to_seconds date0
                     /\ createdAt t <= updatedAt t.

(** The effect of an invocation by [caller] on table [s] is confined to
    the caller's rows: the rows it returns are the caller's, and the rows of
    everybody else are the same rows, in the same order, afterwards. *)
Definition not_owned_by (caller : User) (x : Todo) : bool :=
  negb (eq_userId (user_id caller) x).

Definition confined_to (caller : User) (s : Store) (out : Response * Store) : Prop :=
  (forall x, In x (returned_todos (fst out)) -> userId x = user_id caller)
  /\ filter (not_owned_by caller) (snd out) = filter (not_owned_by caller) s.

(** The row that Create persists. *)
Definition created_todo (caller : User) (title : string) (uuid : string)
    (date : Z) : Todo :=
  mkTodo uuid (user_id caller) title false (to_seconds date) (to_seconds date).

(** Sample data. *)
Definition alice : User := mkUser "alice".
Definition bob : User := mkUser "bob".

Definition milk : Todo :=
  mkTodo "3f2a" "alice" "buy milk" true 1700000000 1700000040.
Definition bread : Todo :=
  mkTodo "9c1d" "alice" "bake bread" false 1700000100 1700000100.
Definition taxes : Todo :=
  mkTodo "51be" "bob" "file taxes" true 1700000050 1700000090.

Definition sample_store : Store := [milk; taxes; bread].

Definition long_title : string := string_of_list_ascii (repeat "a"%char 501).

(** A session: requests served one after the other, each with the
    identifier and the clock reading the environment gives it. *)
Fixpoint serve (requests : list (Request * (string * Z))) (s : Store)
  : list Response * Store :=
  match requests with
  | [] => ([], s)
  | (req, (uuid, date)) :: rest =>
      let (r, s') := respond (todoRoutes req uuid date) s in
      let (rs, s'') := serve rest s' in
      (r :: rs, s'')
  end.

(** Alice creates a row; later she marks it completed. *)
Definition alice_creates : Context :=
  mkContext (Some alice) [] (JObj [("title", JStr "buy milk")])
            "3f2a" 1700000000500.

Definition alice_completes : Context :=
  mkContext (Some alice) [("id", "3f2a")] (JObj [("completed", JBool true)])
            "c0de" 1700000040250.

Definition after_create : Store :=
  snd (respond (run_handler PostRoot alice_creates) []).

Definition after_complete : Store :=
  snd (respond (run_handler PatchId alice_completes) after_create).

(** Alice creates a row, the clock is set back, Bob creates a row and
    later marks it completed. *)
Definition milk_created_late : Context :=
  mkContext (Some alice) [] (JObj [("title", JStr "buy milk")])
            "3f2a" 1700000200000.

Definition taxes_created_early : Context :=
  mkContext (Some bob) [] (JObj [("title", JStr "file taxes")])
            "51be" 1700000100000.

Definition taxes_completed : Context :=
  mkContext (Some bob) [("id", "51be")] (JObj [("completed", JBool true)])
            "c0de" 1700000150000.

Definition clock_set_back_table : Store :=
  snd (respond (run_handler PatchId taxes_completed)
    (snd (respond (run_handler PostRoot taxes_created_early)
      (snd (respond (run_handler PostRoot milk_created_late) []))))).

(** The end-to-end session: create, complete, delete completed, list. *)
Definition milk_session : list (Request * (string * Z)) :=
  [ (mkRequest POST [] (Some alice) (JObj [("title", JStr "buy milk")]),
     ("3f2a", 1700000000500));
    (mkRequest PATCH ["3f2a"] (Some alice) (JObj [("completed", JBool true)]),
     ("c0de", 1700000040250));
    (mkRequest DELETE ["completed"] (Some alice) JNull,
     ("c0de", 1700000050000));
    (mkRequest GET [] (Some alice) JNull,
     ("c0de", 1700000051000)) ].

(** A title as both schemas accept it. *)
Definition valid_title (t : Todo) : Prop :=
  (1 <= String.length (title t) <= 500)%nat.

(** ** Lists and the store *)

Section StoreFacts.

Lemma eq_id_true (v : string) (t : Todo) : eq_id v t = true <-> id t = v.
Proof. unfold eq_id. apply String.eqb_eq. Qed.

Lemma eq_userId_true (v : string) (t : Todo) :
  eq_userId v t = true <-> userId t = v.
Proof. unfold eq_userId. apply String.eqb_eq. Qed.

Lemma eq_userId_false (v : string) (t : Todo) :
  eq_userId v t = false <-> userId t <> v.
Proof. unfold eq_userId. apply String.eqb_neq. Qed.

Lemma eq_completed_true (t : Todo) :
  eq_completed true t = true <-> completed t = true.
Proof. unfold eq_completed. destruct (completed t); simpl; intuition congruence. Qed.

Lemma filter_none {A} (p : A -> bool) (l : list A) :
  (forall x, In x l -> p x = false) -> filter p l = [].
Proof.
  induction l as [|a l IH]; simpl; intros H; [reflexivity|].
  rewrite (H a (or_introl eq_refl)). apply IH. intros x Hx. apply H. now right.
Qed.

Lemma filter_all {A} (p : A -> bool) (l : list A) :
  (forall x, In x l -> p x = true) -> filter p l = l.
Proof.
  induction l as [|a l IH]; simpl; intros H; [reflexivity|].
  rewrite (H a (or_introl eq_refl)). f_equal. apply IH. intros x Hx. apply H. now right.
Qed.

Lemma filter_map_commute {A} (p : A -> bool) (g : A -> A) (l : list A) :
  (forall x, p (g x) = p x) -> filter p (map g l) = map g (filter p l).
Proof.
  intros H. induction l as [|a l IH]; simpl; [reflexivity|].
  rewrite H. destruct (p a); simpl; now rewrite IH.
Qed.

Lemma fresh_id_no_row (v : string) (s : Store) :
  ~ In v (map id s) -> forall t, In t s -> eq_id v t = false.
Proof.
  intros Hfresh t Ht. destruct (eq_id v t) eqn:E; [|reflexivity].
  apply eq_id_true in E. exfalso. apply Hfresh. rewrite <- E. now apply in_map.
Qed.

Lemma existsb_eq_id (v : string) (s : Store) :
  existsb (eq_id v) s = true <-> In v (map id s).
Proof.
  rewrite existsb_exists, in_map_iff. split; intros [t H]; exists t.
  - destruct H as [Ht E]. apply eq_id_true in E. now split.
  - destruct H as [E Ht]. split; [assumption|]. now apply eq_id_true.
Qed.

(** Under the key constraint, selecting by [id] finds the row and nothing
    else, and the table splits around it. *)
Lemma unique_ids_split (s : Store) (t : Todo) :
  unique_ids s -> In t s ->
  exists l1 l2, s = (l1 ++ t :: l2)%list
    /\ (forall x, In x l1 -> eq_id (id t) x = false)
    /\ (forall x, In x l2 -> eq_id (id t) x = false).
Proof.
  unfold unique_ids. intros Hnd Ht.
  destruct (in_split _ _ Ht) as (l1 & l2 & ->).
  exists l1, l2. split; [reflexivity|].
  rewrite map_app in Hnd. simpl in Hnd.
  pose proof (NoDup_remove_2 _ _ _ Hnd) as Hnot.
  split; intros x Hx; apply fresh_id_no_row with (s := (l1 ++ l2)%list);
    try (rewrite in_app_iff; tauto).
  - now rewrite map_app.
  - now rewrite map_app.
Qed.

Lemma select_by_id (s : Store) (t : Todo) :
  unique_ids s -> In t s -> filter (eq_id (id t)) s = [t].
Proof.
  intros Hu Ht. destruct (unique_ids_split s t Hu Ht) as (l1 & l2 & -> & H1 & H2).
  rewrite filter_app. simpl.
  rewrite (filter_none _ l1 H1), (filter_none _ l2 H2).
  assert (E : eq_id (id t) t = true) by now apply eq_id_true.
  now rewrite E.
Qed.

Lemma select_owned_by_id (s : Store) (t : Todo) (u : User) :
  unique_ids s -> In t s -> userId t = user_id u ->
  filter (and_ (eq_id (id t)) (eq_userId (user_id u))) s = [t].
Proof.
  intros Hu Ht Ho.
  assert (E : filter (and_ (eq_id (id t)) (eq_userId (user_id u))) s
              = filter (eq_userId (user_id u)) (filter (eq_id (id t)) s)).
  { clear. induction s as [|a s IH]; simpl; [reflexivity|].
    unfold and_ at 1. destruct (eq_id (id t) a); simpl; rewrite IH;
      [destruct (eq_userId (user_id u) a)|]; reflexivity. }
  rewrite E, (select_by_id s t Hu Ht). simpl.
  assert (E' : eq_userId (user_id u) t = true) by now apply eq_userId_true.
  now rewrite E'.
Qed.

Lemma select_owned_none (s : Store) (v : string) (u : User) :
  (forall t, In t s -> id t = v -> userId t <> user_id u) ->
  filter (and_ (eq_id v) (eq_userId (user_id u))) s = [].
Proof.
  intros H. apply filter_none. intros t Ht. unfold and_.
  destruct (eq_id v t) eqn:E; [simpl|reflexivity].
  apply eq_userId_false. apply H; [assumption|]. now apply eq_id_true.
Qed.

Lemma select_owned_some (s : Store) (v : string) (u : User) (t : Todo)
    (rest : list Todo) :
  filter (and_ (eq_id v) (eq_userId (user_id u))) s = t :: rest ->
  In t s /\ id t = v /\ userId t = user_id u.
Proof.
  intros E.
  assert (Hin : In t (filter (and_ (eq_id v) (eq_userId (user_id u))) s))
    by (rewrite E; now left).
  apply filter_In in Hin. destruct Hin as [Hin Hp].
  unfold and_ in Hp. apply andb_true_iff in Hp. destruct Hp as [H1 H2].
  apply eq_id_true in H1. apply eq_userId_true in H2. tauto.
Qed.

End StoreFacts.

(** ** What each handler does to the table *)

Section HandlerFacts.

Variable u : User.

Lemma get_handler_run (s : Store) :
  respond (get_handler (Some u)) s
  = (c_json (TodoArray (order_by_desc_createdAt
                          (filter (eq_userId (user_id u)) s))) 200, s).
Proof. reflexivity. Qed.

Lemma post_handler_invalid (body : json) (uuid : string) (date : Z) (s : Store) :
  createTodoSchema body = None ->
  respond (post_handler (Some u) body uuid date) s
  = (c_json ValidationIssues 400, s).
Proof. intros E. unfold post_handler, zValidator. now rewrite E. Qed.

Lemma post_handler_fresh (body : json) (title : string) (uuid : string)
    (date : Z) (s : Store) :
  createTodoSchema body = Some title ->
  ~ In uuid (map id s) ->
  let t := mkTodo uuid (user_id u) title false (to_seconds date) (to_seconds date) in
  respond (post_handler (Some u) body uuid date) s
  = (c_json (TodoObject (Some t)) 201, (s ++ [t])%list).
Proof.
  intros E Hfresh t. unfold post_handler, zValidator. rewrite E.
  unfold respond, bind, insert_values, select_from_where, ret. simpl.
  destruct (existsb (eq_id uuid) s) eqn:Ex.
  - exfalso. apply Hfresh. now apply existsb_eq_id.
  - rewrite filter_app, (filter_none _ s (fresh_id_no_row uuid s Hfresh)). simpl.
    fold t. assert (Et : eq_id uuid t = true) by now apply eq_id_true.
    rewrite Et. reflexivity.
Qed.

Lemma post_handler_duplicate (body : json) (title : string) (uuid : string)
    (date : Z) (s : Store) :
  createTodoSchema body = Some title ->
  In uuid (map id s) ->
  respond (post_handler (Some u) body uuid date) s
  = (c_json InternalServerErrorText 500, s).
Proof.
  intros E Hdup. unfold post_handler, zValidator. rewrite E.
  unfold respond, bind, insert_values. simpl.
  apply existsb_eq_id in Hdup. now rewrite Hdup.
Qed.

Lemma patch_handler_invalid (v : string) (body : json) (date : Z) (s : Store) :
  updateTodoSchema body = None ->
  respond (patch_handler (Some u) v body date) s
  = (c_json ValidationIssues 400, s).
Proof. intros E. unfold patch_handler, zValidator. now rewrite E. Qed.

Lemma patch_handler_not_found (v : string) (body : json) (updates : Updates)
    (date : Z) (s : Store) :
  updateTodoSchema body = Some updates ->
  (forall t, In t s -> id t = v -> userId t <> user_id u) ->
  respond (patch_handler (Some u) v body date) s
  = (c_json (ErrorMessage "Todo not found") 404, s).
Proof.
  intros E Hnone. unfold patch_handler, zValidator. rewrite E.
  unfold respond, bind, select_from_where. simpl.
  now rewrite (select_owned_none s v u Hnone).
Qed.

Lemma patch_handler_found (t : Todo) (body : json) (updates : Updates)
    (date : Z) (s : Store) :
  updateTodoSchema body = Some updates ->
  unique_ids s -> In t s -> userId t = user_id u ->
  respond (patch_handler (Some u) (id t) body date) s
  = (c_json (TodoObject (Some (set_updates updates date t))) 200,
     map (fun r => if eq_id (id t) r then set_updates updates date r else r) s).
Proof.
  intros E Hu Ht Ho. unfold patch_handler, zValidator. rewrite E.
  unfold respond, bind, select_from_where, update_set_where, ret. simpl.
  rewrite (select_owned_by_id s t u Hu Ht Ho). simpl.
  rewrite filter_map_commute.
  - rewrite (select_by_id s t Hu Ht). simpl.
    assert (Et : eq_id (id t) t = true) by now apply eq_id_true.
    now rewrite Et.
  - intros x. destruct (eq_id (id t) x) eqn:Ex; [|assumption].
    unfold eq_id in *. simpl. assumption.
Qed.

Lemma delete_handler_not_found (v : string) (s : Store) :
  (forall t, In t s -> id t = v -> userId t <> user_id u) ->
  respond (delete_handler (Some u) v) s
  = (c_json (ErrorMessage "Todo not found") 404, s).
Proof.
  intros Hnone. unfold delete_handler, respond, bind, select_from_where. simpl.
  now rewrite (select_owned_none s v u Hnone).
Qed.

Lemma delete_handler_found (t : Todo) (s : Store) :
  unique_ids s -> In t s -> userId t = user_id u ->
  exists l1 l2, s = (l1 ++ t :: l2)%list
    /\ respond (delete_handler (Some u) (id t)) s
       = (c_json SuccessTrue 200, (l1 ++ l2)%list).
Proof.
  intros Hu Ht Ho.
  destruct (unique_ids_split s t Hu Ht) as (l1 & l2 & Es & H1 & H2).
  exists l1, l2. split; [assumption|].
  unfold delete_handler, respond, bind, select_from_where, delete_where, ret. simpl.
  rewrite (select_owned_by_id s t u Hu Ht Ho). simpl.
  rewrite Es, filter_app. simpl.
  assert (Et : eq_id (id t) t = true) by now apply eq_id_true.
  rewrite Et. simpl. f_equal. f_equal; apply filter_all; intros x Hx.
  - now rewrite (H1 x Hx).
  - now rewrite (H2 x Hx).
Qed.

Lemma delete_completed_handler_run (s : Store) :
  respond (delete_completed_handler (Some u)) s
  = (c_json SuccessTrue 200,
     filter (fun t => negb (eq_userId (user_id u) t && eq_completed true t)) s).
Proof. reflexivity. Qed.

End HandlerFacts.

(** ** Every invocation is one of five effects on the table *)

Section StepFacts.

Lemma step_cases (h : Handler) (c : Context) (s : Store) :
  let s' := snd (respond (run_handler h c) s) in
  s' = s
  \/ (exists u title,
        c_user c = Some u /\ ~ In (c_uuid c) (map id s)
        /\ s' = (s ++ [mkTodo (c_uuid c) (user_id u) title false
                         (to_seconds (c_date c)) (to_seconds (c_date c))])%list)
  \/ (exists u updates t,
        c_user c = Some u /\ In t s /\ userId t = user_id u
        /\ s' = map (fun r => if eq_id (id t) r
                              then set_updates updates (c_date c) r else r) s)
  \/ (exists u t,
        c_user c = Some u /\ In t s /\ userId t = user_id u
        /\ s' = filter (fun r => negb (eq_id (id t) r)) s)
  \/ (exists u,
        c_user c = Some u
        /\ s' = filter (fun r => negb (eq_userId (user_id u) r
                                       && eq_completed true r)) s).
Proof.
  destruct c as [user params body uuid date]. destruct h; simpl.
  - (* GET / *)
    left. destruct user; reflexivity.
  - (* POST / *)
    unfold post_handler, zValidator.
    destruct (createTodoSchema body) as [title|]; [|now left].
    destruct user as [u|]; [|now left].
    unfold respond, bind, insert_values, select_from_where, ret. simpl.
    destruct (existsb (eq_id uuid) s) eqn:Ex; [now left|].
    right; left. exists u, title. repeat split.
    intros Hin. apply existsb_eq_id in Hin. congruence.
  - (* PATCH /:id *)
    unfold patch_handler, zValidator.
    destruct (updateTodoSchema body) as [updates|]; [|now left].
    destruct user as [u|]; [|now left].
    unfold respond, bind, select_from_where, update_set_where, ret. simpl.
    destruct (filter _ s) as [|t rest] eqn:Ef; [now left|].
    apply select_owned_some in Ef. destruct Ef as (Hin & Hid & Ho).
    right; right; left. exists u, updates, t. rewrite Hid. simpl. now repeat split.
  - (* DELETE /:id *)
    unfold delete_handler.
    destruct user as [u|]; [|now left].
    unfold respond, bind, select_from_where, delete_where, ret. simpl.
    destruct (filter _ s) as [|t rest] eqn:Ef; [now left|].
    apply select_owned_some in Ef. destruct Ef as (Hin & Hid & Ho).
    right; right; right; left. exists u, t. rewrite Hid. simpl. now repeat split.
  - (* DELETE /completed *)
    destruct user as [u|]; [|now left].
    right; right; right; right. exists u. now split.
Qed.

Lemma map_id_set_updates (v : string) (updates : Updates) (date : Z) (s : Store) :
  map id (map (fun r => if eq_id v r then set_updates updates date r else r) s)
  = map id s.
Proof.
  rewrite map_map. apply map_ext. intros r. now destruct (eq_id v r).
Qed.

Lemma unique_ids_filter (p : Todo -> bool) (s : Store) :
  unique_ids s -> unique_ids (filter p s).
Proof.
  unfold unique_ids. induction s as [|a s IH]; simpl; intros H; [assumption|].
  inversion H as [|? ? Hnot Hnd]; subst.
  destruct (p a); simpl; [|now apply IH].
  constructor; [|now apply IH].
  intros Hin. apply Hnot. apply in_map_iff in Hin. destruct Hin as (x & E & Hx).
  apply filter_In in Hx. rewrite <- E. apply in_map. tauto.
Qed.

Lemma step_unique_ids (h : Handler) (c : Context) (s : Store) :
  unique_ids s -> unique_ids (snd (respond (run_handler h c) s)).
Proof.
  intros Hu.
  destruct (step_cases h c s) as
    [E | [(u & title & _ & Hf & E) | [(u & upd & t & _ & _ & _ & E)
       | [(u & t & _ & _ & _ & E) | (u & _ & E)]]]]; rewrite E.
  - assumption.
  - unfold unique_ids. rewrite map_app. simpl.
    apply NoDup_app; [assumption | repeat constructor; intros [] |].
    intros x Hx [Hx'|[]]. simpl in Hx'. subst x. contradiction.
  - unfold unique_ids. now rewrite map_id_set_updates.
  - now apply unique_ids_filter.
  - now apply unique_ids_filter.
Qed.

(** The key constraint holds in every reachable table. *)
Lemma reachable_unique_ids (s : Store) : reachable s -> unique_ids s.
Proof.
  induction 1 as [|s h c _ IH].
  - constructor.
  - now apply step_unique_ids.
Qed.

Lemma reachable_at_reachable (clock : Z) (s : Store) :
  reachable_at clock s -> reachable s.
Proof. induction 1; now constructor. Qed.

End StepFacts.

(** ** Ordering by [createdAt] *)

Section OrderFacts.

Lemma insert_desc_perm (t : Todo) (l : list Todo) :
  Permutation (insert_desc t l) (t :: l).
Proof.
  induction l as [|x l IH]; simpl; [apply Permutation_refl|].
  destruct (createdAt x <=? createdAt t); [apply Permutation_refl|].
  eapply perm_trans; [apply perm_skip, IH | apply perm_swap].
Qed.

Lemma order_by_desc_createdAt_perm (l : list Todo) :
  Permutation (order_by_desc_createdAt l) l.
Proof.
  induction l as [|x l IH]; simpl; [constructor|].
  eapply perm_trans; [apply insert_desc_perm | now apply perm_skip].
Qed.

Lemma insert_desc_sorted (t : Todo) (l : list Todo) :
  Sorted most_recent_first l -> Sorted most_recent_first (insert_desc t l).
Proof.
  induction l as [|x l IH]; simpl; intros Hs.
  - repeat constructor.
  - destruct (createdAt x <=? createdAt t) eqn:E.
    + constructor; [assumption|]. constructor. unfold most_recent_first. lia.
    + inversion Hs as [|? ? Hs' Hhd]; subst.
      constructor; [now apply IH|].
      destruct l as [|y l]; simpl.
      * constructor. unfold most_recent_first. lia.
      * destruct (createdAt y <=? createdAt t).
        -- constructor. unfold most_recent_first. lia.
        -- constructor. now inversion Hhd.
Qed.

Lemma order_by_desc_createdAt_sorted (l : list Todo) :
  StronglySorted most_recent_first (order_by_desc_createdAt l).
Proof.
  apply Sorted_StronglySorted.
  - intros a b c Hab Hbc. unfold most_recent_first in *. lia.
  - induction l as [|x l IH]; simpl; [constructor|]. now apply insert_desc_sorted.
Qed.

End OrderFacts.

(** ** Routing facts *)

Section RouteFacts.

Lemma route_get_root :
  find_route todoRoutes_table GET [] = Some (GetRoot, []).
Proof. reflexivity. Qed.

Lemma route_post_root :
  find_route todoRoutes_table POST [] = Some (PostRoot, []).
Proof. reflexivity. Qed.

Lemma route_patch_id (v : string) :
  v <> EmptyString -> find_route todoRoutes_table PATCH [v] = Some (PatchId, [("id", v)]).
Proof.
  intros Hv. cbn -[String.eqb]. apply String.eqb_neq in Hv. now rewrite Hv.
Qed.

(** Every one-segment DELETE path is taken by [/:id], the segment
    [completed] included: its route is registered before [/completed]. *)
Lemma route_delete_id (v : string) :
  v <> EmptyString -> find_route todoRoutes_table DELETE [v] = Some (DeleteId, [("id", v)]).
Proof.
  intros Hv. cbn -[String.eqb]. apply String.eqb_neq in Hv. now rewrite Hv.
Qed.

(** No path reaches the handler of [/completed]. *)
Lemma route_delete_completed_unreachable (method : Method) (path : list string)
    (params : list (string * string)) :
  find_route todoRoutes_table method path <> Some (DeleteCompleted, params).
Proof.
  destruct method; destruct path as [|v [|w path]]; cbn -[String.eqb];
    try discriminate;
    destruct (String.eqb v EmptyString) eqn:Ev; cbn -[String.eqb]; try discriminate;
    destruct (String.eqb "completed" v) eqn:Ec; try discriminate.
  apply String.eqb_eq in Ev, Ec. subst v. discriminate.
Qed.

Lemma todoRoutes_cases (req : Request) (uuid : string) (date : Z) (b : User) :
  req_user req = Some b ->
  (exists h c, c_user c = Some b /\ c_date c = date
               /\ todoRoutes req uuid date = run_handler h c)
  \/ todoRoutes req uuid date = ret (c_json NotFoundText 404).
Proof.
  intros Hb. unfold todoRoutes, authenticatedOnly. rewrite Hb.
  destruct (find_route todoRoutes_table (req_method req) (req_path req))
    as [[h params]|]; [left|now right].
  now exists h, (mkContext (Some b) params (req_body req) uuid date).
Qed.

End RouteFacts.

(** ** Listing *)

(** C7: for an authenticated caller, GET /todos answers 200 with all the
    rows owned by the caller, each as often as the table has it (nothing is
    paged away), most recent [createdAt] first, leaves the table as it is,
    and answers the empty array when the caller owns no row. *)
Theorem list_owned_most_recent_first (u : User) (body : json) (uuid : string)
    (date : Z) (s : Store) :
  exists rows,
    respond (todoRoutes (mkRequest GET [] (Some u) body) uuid date) s
    = (c_json (TodoArray rows) 200, s)
    /\ Permutation rows (filter (eq_userId (user_id u)) s)
    /\ (forall t, In t rows <-> In t s /\ userId t = user_id u)
    /\ StronglySorted most_recent_first rows
    /\ ((forall t, In t s -> userId t <> user_id u) -> rows = []).
Proof.
  exists (order_by_desc_createdAt (filter (eq_userId (user_id u)) s)).
  pose proof (order_by_desc_createdAt_perm (filter (eq_userId (user_id u)) s)) as Hp.
  split; [reflexivity|]. split; [assumption|]. split; [|split].
  - intros t. rewrite <- eq_userId_true, <- filter_In.
    split; intros Hin.
    + now apply (Permutation_in _ Hp).
    + now apply (Permutation_in _ (Permutation_sym Hp)).
  - apply order_by_desc_createdAt_sorted.
  - intros Hnone. rewrite filter_none; [reflexivity|].
    intros t Ht. apply eq_userId_false. now apply Hnone.
Qed.

(** ** The filtered views *)

Section ViewFacts.

Lemma filter_negb_partition {A} (p : A -> bool) (l : list A) :
  Permutation (filter (fun x => negb (p x)) l ++ filter p l) l.
Proof.
  induction l as [|a l IH]; simpl; [constructor|].
  destruct (p a); simpl.
  - apply Permutation_sym. apply Permutation_cons_app. now apply Permutation_sym.
  - now constructor.
Qed.

Lemma filter_negb_length {A} (p : A -> bool) (l : list A) :
  (List.length (filter (fun x => negb (p x)) l) + List.length (filter p l)
   = List.length l)%nat.
Proof.
  rewrite <- length_app. apply Permutation_length, filter_negb_partition.
Qed.

End ViewFacts.

(** C9: the view for [all] is the list itself; the [active] view holds the
    rows with [completed = false] and the [completed] view those with
    [completed = true]; together they are a rearrangement of the list, no
    row is in both, and the two counts add up to the length of the list. *)
Theorem filtered_views_partition (todos : list Todo) :
  filteredTodos todos all = todos
  /\ (forall t, In t (filteredTodos todos active)
                <-> In t todos /\ completed t = false)
  /\ (forall t, In t (filteredTodos todos completed_)
                <-> In t todos /\ completed t = true)
  /\ Permutation (filteredTodos todos active ++ filteredTodos todos completed_)
                 todos
  /\ (forall t, In t (filteredTodos todos active) ->
                ~ In t (filteredTodos todos completed_))
  /\ (activeTodoCount todos + completedTodoCount todos = List.length todos)%nat.
Proof.
  unfold filteredTodos, activeTodoCount, completedTodoCount.
  split; [apply filter_all; reflexivity|].
  split; [intros t; rewrite filter_In, negb_true_iff; reflexivity|].
  split; [intros t; rewrite filter_In; reflexivity|].
  split; [apply (filter_negb_partition completed)|].
  split; [|apply (filter_negb_length completed)].
  intros t Ha Hc. apply filter_In in Ha, Hc.
  destruct Ha as [_ Ha], Hc as [_ Hc]. rewrite Hc in Ha. discriminate.
Qed.

(** ** Creating *)

Section CreateFacts.

Lemma z_string_rejects (title : string) :
  title = EmptyString \/ (500 < String.length title)%nat ->
  z_string_min1_max500 (JStr title) = None.
Proof.
  intros [-> | Hlong]; [reflexivity|]. unfold z_string_min1_max500.
  assert (E : (String.length title <=? 500)%nat = false)
    by (apply Nat.leb_gt; assumption).
  rewrite E. now rewrite andb_false_r.
Qed.

Lemma z_string_accepts (title : string) :
  (1 <= String.length title <= 500)%nat ->
  z_string_min1_max500 (JStr title) = Some title.
Proof.
  intros [Hlo Hhi]. unfold z_string_min1_max500.
  apply Nat.leb_le in Hlo, Hhi. now rewrite Hlo, Hhi.
Qed.

End CreateFacts.

(** C5: for an authenticated caller, POST /todos with a title that is the
    empty string or longer than 500 is answered with 400 and the table is
    left as it was. *)
Theorem create_rejects_bad_title (u : User) (fields : list (string * json))
    (title : string) (uuid : string) (date : Z) (s : Store) :
  get_field "title" fields = Some (JStr title) ->
  title = EmptyString \/ (500 < String.length title)%nat ->
  respond (todoRoutes (mkRequest POST [] (Some u) (JObj fields)) uuid date) s
  = (c_json ValidationIssues 400, s).
Proof.
  intros Hf Hbad. change (todoRoutes _ uuid date)
    with (post_handler (Some u) (JObj fields) uuid date).
  apply post_handler_invalid. simpl. rewrite Hf. now apply z_string_rejects.
Qed.

Lemma create_rejects_bad_title_witness :
  respond (todoRoutes (mkRequest POST [] (Some alice)
                         (JObj [("title", JStr long_title)])) "77aa" 1700000200123)
          sample_store
  = (c_json ValidationIssues 400, sample_store).
Proof.
  apply (create_rejects_bad_title alice [("title", JStr long_title)] long_title).
  - reflexivity.
  - right. vm_compute. lia.
Defined.

(** C6: for an authenticated caller and a title of length 1 to 500, POST
    /todos (with an identifier no row has yet) answers 201 with the created
    row: that title, [completed = false], [createdAt = updatedAt]; and the
    list the caller gets afterwards is the list from before with that one
    row added, a row the list from before does not have. *)
Theorem create_then_list (u : User) (fields : list (string * json))
    (text : string) (uuid : string) (date date' : Z) (body' : json)
    (uuid' : string) (s : Store) :
  get_field "title" fields = Some (JStr text) ->
  (1 <= String.length text <= 500)%nat ->
  ~ In uuid (map id s) ->
  exists (t : Todo) (s' : Store) (before after : list Todo),
    respond (todoRoutes (mkRequest POST [] (Some u) (JObj fields)) uuid date) s
    = (c_json (TodoObject (Some t)) 201, s')
    /\ respond (todoRoutes (mkRequest GET [] (Some u) body') uuid' date') s
       = (c_json (TodoArray before) 200, s)
    /\ respond (todoRoutes (mkRequest GET [] (Some u) body') uuid' date') s'
       = (c_json (TodoArray after) 200, s')
    /\ Permutation after (t :: before)
    /\ ~ In t before
    /\ title t = text /\ completed t = false
    /\ createdAt t = updatedAt t
    /\ id t = uuid /\ userId t = user_id u.
Proof.
  intros Hf Hlen Hfresh.
  set (t := created_todo u text uuid date).
  exists t, (s ++ [t])%list,
    (order_by_desc_createdAt (filter (eq_userId (user_id u)) s)),
    (order_by_desc_createdAt (filter (eq_userId (user_id u)) (s ++ [t]))).
  split.
  { change (todoRoutes _ uuid date)
      with (post_handler (Some u) (JObj fields) uuid date).
    apply post_handler_fresh; [|assumption].
    simpl. rewrite Hf. now apply z_string_accepts. }
  split; [reflexivity|]. split; [reflexivity|]. split; [|split].
  - eapply perm_trans; [apply order_by_desc_createdAt_perm|].
    rewrite filter_app. simpl.
    assert (Et : eq_userId (user_id u) t = true) by now apply eq_userId_true.
    rewrite Et. eapply perm_trans; [apply Permutation_app_comm|]. simpl.
    apply perm_skip, Permutation_sym, order_by_desc_createdAt_perm.
  - intros Hin. apply Hfresh.
    apply (Permutation_in _ (order_by_desc_createdAt_perm _)) in Hin.
    apply filter_In in Hin. destruct Hin as [Hin _].
    change uuid with (id t). now apply in_map.
  - repeat split.
Qed.

Lemma create_then_list_witness :
  exists (t : Todo) (s' : Store) (before after : list Todo),
    respond (todoRoutes (mkRequest POST [] (Some alice)
                           (JObj [("title", JStr "water plants")]))
                        "77aa" 1700000200123) sample_store
    = (c_json (TodoObject (Some t)) 201, s')
    /\ respond (todoRoutes (mkRequest GET [] (Some alice) JNull) "c0de" 0) sample_store
       = (c_json (TodoArray before) 200, sample_store)
    /\ respond (todoRoutes (mkRequest GET [] (Some alice) JNull) "c0de" 0) s'
       = (c_json (TodoArray after) 200, s')
    /\ Permutation after (t :: before)
    /\ ~ In t before
    /\ title t = "water plants" /\ completed t = false
    /\ createdAt t = updatedAt t
    /\ id t = "77aa" /\ userId t = user_id alice.
Proof.
  apply (create_then_list alice [("title", JStr "water plants")] "water plants").
  - reflexivity.
  - vm_compute. lia.
  - simpl. intros [H|[H|[H|[]]]]; discriminate.
Defined.

(** ** Updating *)

Section UpdateFacts.

Variable u : User.

Lemma unique_ids_middle (l1 l2 : list Todo) (t : Todo) :
  unique_ids (l1 ++ t :: l2)%list ->
  (forall x, In x l1 -> eq_id (id t) x = false)
  /\ (forall x, In x l2 -> eq_id (id t) x = false)
  /\ ~ In t (l1 ++ l2)%list.
Proof.
  unfold unique_ids. rewrite map_app. simpl. intros Hnd.
  pose proof (NoDup_remove_2 _ _ _ Hnd) as Hnot. rewrite <- map_app in Hnot.
  pose proof (fresh_id_no_row (id t) (l1 ++ l2)%list Hnot) as Hrows.
  repeat split.
  - intros x Hx. apply Hrows. rewrite in_app_iff. now left.
  - intros x Hx. apply Hrows. rewrite in_app_iff. now right.
  - intros Hin. apply Hnot. now apply in_map.
Qed.

Lemma update_one_row (l1 l2 : list Todo) (t : Todo) (g : Todo -> Todo) :
  unique_ids (l1 ++ t :: l2)%list ->
  map (fun r => if eq_id (id t) r then g r else r) (l1 ++ t :: l2)%list
  = (l1 ++ g t :: l2)%list.
Proof.
  intros Hu. destruct (unique_ids_middle l1 l2 t Hu) as (H1 & H2 & _).
  rewrite map_app. simpl.
  assert (Et : eq_id (id t) t = true) by now apply eq_id_true.
  rewrite Et. f_equal; [|f_equal].
  - rewrite <- (map_id l1) at 2. apply map_ext_in. intros x Hx. now rewrite (H1 x Hx).
  - rewrite <- (map_id l2) at 2. apply map_ext_in. intros x Hx. now rewrite (H2 x Hx).
Qed.

Lemma patch_handler_owned (l1 l2 : list Todo) (t : Todo) (body : json)
    (updates : Updates) (date : Z) :
  updateTodoSchema body = Some updates ->
  unique_ids (l1 ++ t :: l2)%list -> userId t = user_id u ->
  respond (patch_handler (Some u) (id t) body date) (l1 ++ t :: l2)%list
  = (c_json (TodoObject (Some (set_updates updates date t))) 200,
     (l1 ++ set_updates updates date t :: l2)%list).
Proof.
  intros E Hu Ho.
  rewrite (patch_handler_found u t body updates date _ E Hu); try assumption.
  - now rewrite update_one_row.
  - rewrite in_app_iff. right. now left.
Qed.



End UpdateFacts.



(** C10: on a row the caller owns, PATCH /todos/:id with a body that has
    neither [title] nor [completed] (the empty object among them) is
    accepted: it answers 200 with the row, whose [updatedAt] comes from the
    clock and whose other fields are as before, and the other rows of the
    table stay as they are. *)
Theorem update_empty_patch_accepted (u : User) (t : Todo)
    (fields : list (string * json)) (date : Z) (s : Store) :
  unique_ids s -> In t s -> userId t = user_id u ->
  get_field "title" fields = None ->
  get_field "completed" fields = None ->
  updateTodoSchema (JObj fields) = Some (mkUpdates None None)
  /\ exists l1 l2, s = (l1 ++ t :: l2)%list /\
     let t' := mkTodo (id t) (userId t) (title t) (completed t)
                      (createdAt t) (to_seconds date) in
     respond (patch_handler (Some u) (id t) (JObj fields) date) s
     = (c_json (TodoObject (Some t')) 200, (l1 ++ t' :: l2)%list).
Proof.
  intros Hu Ht Ho Hti Hco.
  assert (E : updateTodoSchema (JObj fields) = Some (mkUpdates None None))
    by (unfold updateTodoSchema; now rewrite Hti, Hco).
  split; [assumption|].
  destruct (in_split _ _ Ht) as (l1 & l2 & ->).
  exists l1, l2. split; [reflexivity|]. cbv zeta.
  now rewrite (patch_handler_owned u l1 l2 t _ _ date E Hu Ho).
Qed.

Lemma update_empty_patch_accepted_witness :
  updateTodoSchema (JObj []) = Some (mkUpdates None None)
  /\ exists l1 l2, sample_store = (l1 ++ milk :: l2)%list /\
     let t' := mkTodo (id milk) (userId milk) (title milk) (completed milk)
                      (createdAt milk) (to_seconds 1700000300999) in
     respond (patch_handler (Some alice) (id milk) (JObj []) 1700000300999)
             sample_store
     = (c_json (TodoObject (Some t')) 200, (l1 ++ t' :: l2)%list).
Proof.
  apply (update_empty_patch_accepted alice milk [] 1700000300999 sample_store).
  - unfold unique_ids. simpl.
    repeat constructor; simpl; intuition discriminate.
  - simpl. tauto.
  - reflexivity.
  - reflexivity.
  - reflexivity.
Defined.

(** ** Deleting one row *)

Section DeleteFacts.

Lemma owned_row_dec (v : string) (u : User) (s : Store) :
  (exists t, In t s /\ id t = v /\ userId t = user_id u)
  \/ (forall t, In t s -> id t = v -> userId t <> user_id u).
Proof.
  induction s as [|a s [(t & Hin & H)|IH]].
  - right. intros t [].
  - left. exists t. split; [now right | assumption].
  - destruct (string_dec (id a) v) as [Ev|Ev];
      [destruct (string_dec (userId a) (user_id u)) as [Eo|Eo]|].
    + left. exists a. split; [now left | tauto].
    + right. intros t [<-|Hin]; [now intros _ | now apply IH].
    + right. intros t [<-|Hin]; [now intros Hv | now apply IH].
Qed.

End DeleteFacts.

(** C4: DELETE /todos/:id answers 404 exactly when the caller owns no row
    with that [id] (there is none, or it is somebody else's), and then the
    table is left as it was; otherwise it answers 200 with the success
    acknowledgement and the table is the one from before without that one
    row. *)
Theorem delete_one_not_found_iff (u : User) (v : string) (s : Store) :
  unique_ids s ->
  let run := respond (delete_handler (Some u) v) s in
  (status (fst run) = 404
   <-> ~ exists t, In t s /\ id t = v /\ userId t = user_id u)
  /\ (status (fst run) = 404 ->
      run = (c_json (ErrorMessage "Todo not found") 404, s))
  /\ (forall t, In t s -> id t = v -> userId t = user_id u ->
      exists l1 l2, s = (l1 ++ t :: l2)%list
        /\ run = (c_json SuccessTrue 200, (l1 ++ l2)%list)
        /\ ~ In t (l1 ++ l2)%list).
Proof.
  intros Hu run.
  assert (Hfound : forall t, In t s -> id t = v -> userId t = user_id u ->
            exists l1 l2, s = (l1 ++ t :: l2)%list
              /\ run = (c_json SuccessTrue 200, (l1 ++ l2)%list)
              /\ ~ In t (l1 ++ l2)%list).
  { intros t Ht Hv Ho. subst v run.
    destruct (delete_handler_found u t s Hu Ht Ho) as (l1 & l2 & Es & Er).
    exists l1, l2. split; [assumption|]. split; [assumption|].
    rewrite Es in Hu. now apply unique_ids_middle in Hu. }
  destruct (owned_row_dec v u s) as [(t & Ht & Hv & Ho)|Hnone].
  - destruct (Hfound t Ht Hv Ho) as (l1 & l2 & _ & Er & _).
    split; [|split]; [| |assumption]; rewrite Er; simpl.
    + split; [discriminate|]. intros Hno. exfalso. apply Hno. now exists t.
    + discriminate.
  - assert (Er : run = (c_json (ErrorMessage "Todo not found") 404, s))
      by now apply delete_handler_not_found.
    split; [|split]; [| |assumption].
    + rewrite Er. simpl. split; [|reflexivity].
      intros _ (t & Ht & Hv & Ho). now apply (Hnone t Ht Hv).
    + intros _. assumption.
Qed.

Lemma delete_one_not_found_iff_witness :
  let run := respond (delete_handler (Some alice) "51be") sample_store in
  (status (fst run) = 404
   <-> ~ exists t, In t sample_store /\ id t = "51be" /\ userId t = user_id alice)
  /\ (status (fst run) = 404 ->
      run = (c_json (ErrorMessage "Todo not found") 404, sample_store))
  /\ (forall t, In t sample_store -> id t = "51be" -> userId t = user_id alice ->
      exists l1 l2, sample_store = (l1 ++ t :: l2)%list
        /\ run = (c_json SuccessTrue 200, (l1 ++ l2)%list)
        /\ ~ In t (l1 ++ l2)%list).
Proof.
  apply (delete_one_not_found_iff alice "51be" sample_store).
  unfold unique_ids. simpl.
  repeat constructor; simpl; intuition discriminate.
Defined.

(** ** Ownership scoping *)

Section OwnershipFacts.

Variable b : User.

Lemma same_id_same_row (s : Store) (r t : Todo) :
  unique_ids s -> In r s -> In t s -> id r = id t -> r = t.
Proof.
  intros Hu Hr Ht E.
  assert (Hin : In r (filter (eq_id (id t)) s))
    by (apply filter_In; split; [assumption | now apply eq_id_true]).
  rewrite (select_by_id s t Hu Ht) in Hin. destruct Hin as [<-|[]]. reflexivity.
Qed.

Lemma filter_filter_absorb {A} (p q : A -> bool) (l : list A) :
  (forall x, In x l -> p x = true -> q x = true) ->
  filter p (filter q l) = filter p l.
Proof.
  induction l as [|a l IH]; simpl; intros H; [reflexivity|].
  assert (IH' : filter p (filter q l) = filter p l)
    by (apply IH; intros x Hx; apply H; now right).
  destruct (q a) eqn:Eq; simpl; rewrite IH'; [reflexivity|].
  destruct (p a) eqn:Ep; [|reflexivity].
  rewrite (H a (or_introl eq_refl) Ep) in Eq. discriminate.
Qed.

Lemma filter_map_fixed {A} (p : A -> bool) (g : A -> A) (l : list A) :
  (forall x, In x l -> p (g x) = p x) ->
  (forall x, In x l -> p x = true -> g x = x) ->
  filter p (map g l) = filter p l.
Proof.
  induction l as [|a l IH]; simpl; intros H1 H2; [reflexivity|].
  rewrite (H1 a (or_introl eq_refl)).
  rewrite IH by (intros; (apply H1 || apply H2); try right; assumption).
  destruct (p a) eqn:Ep; [|reflexivity].
  now rewrite (H2 a (or_introl eq_refl) Ep).
Qed.

Lemma foreign_row_other_id (s : Store) (t x : Todo) :
  unique_ids s -> In t s -> userId t = user_id b ->
  In x s -> not_owned_by b x = true -> eq_id (id t) x = false.
Proof.
  intros Hu Ht Ho Hx Hn. destruct (eq_id (id t) x) eqn:E; [|reflexivity].
  apply eq_id_true in E. rewrite (same_id_same_row s x t Hu Hx Ht E) in Hn.
  unfold not_owned_by in Hn. apply negb_true_iff, eq_userId_false in Hn. contradiction.
Qed.

Lemma step_others_untouched (h : Handler) (c : Context) (s : Store) :
  unique_ids s -> c_user c = Some b ->
  filter (not_owned_by b) (snd (respond (run_handler h c) s)) = filter (not_owned_by b) s.
Proof.
  intros Hu Hb.
  destruct (step_cases h c s) as
    [E | [(u & title & Hc & _ & E) | [(u & upd & t & Hc & Ht & Ho & E)
       | [(u & t & Hc & Ht & Ho & E) | (u & Hc & E)]]]]; rewrite E;
    try (rewrite Hb in Hc; injection Hc as <-).
  - reflexivity.
  - rewrite filter_app. simpl.
    assert (En : not_owned_by b (mkTodo (c_uuid c) (user_id b) title false
                  (to_seconds (c_date c)) (to_seconds (c_date c))) = false).
    { unfold not_owned_by. apply negb_false_iff. now apply eq_userId_true. }
    rewrite En. apply app_nil_r.
  - apply filter_map_fixed.
    + intros x _. now destruct (eq_id (id t) x).
    + intros x Hx Hn. now rewrite (foreign_row_other_id s t x Hu Ht Ho Hx Hn).
  - apply filter_filter_absorb. intros x Hx Hn.
    now rewrite (foreign_row_other_id s t x Hu Ht Ho Hx Hn).
  - apply filter_filter_absorb. intros x _ Hn.
    unfold not_owned_by in Hn. apply negb_true_iff in Hn. now rewrite Hn.
Qed.

Lemma step_returns_own (h : Handler) (c : Context) (s : Store) :
  unique_ids s -> c_user c = Some b ->
  forall x, In x (returned_todos (fst (respond (run_handler h c) s))) ->
            userId x = user_id b.
Proof.
  intros Hu Hb. destruct c as [user params body uuid date]. simpl in Hb. subst user.
  destruct h; cbn [run_handler c_user c_params c_body c_uuid c_date].
  - (* GET / *)
    rewrite get_handler_run. simpl. intros x Hx.
    apply (Permutation_in _ (order_by_desc_createdAt_perm _)) in Hx.
    apply filter_In in Hx. now apply eq_userId_true.
  - (* POST / *)
    destruct (createTodoSchema body) as [title|] eqn:E.
    + destruct (in_dec string_dec uuid (map id s)) as [Hdup|Hfresh].
      * rewrite (post_handler_duplicate b body title uuid date s E Hdup).
        intros x [].
      * rewrite (post_handler_fresh b body title uuid date s E Hfresh).
        intros x [<-|[]]. reflexivity.
    + rewrite (post_handler_invalid b body uuid date s E). intros x [].
  - (* PATCH /:id *)
    set (v := req_param "id" params).
    destruct (updateTodoSchema body) as [updates|] eqn:E.
    + destruct (owned_row_dec v b s) as [(t & Ht & Hv & Ho)|Hnone].
      * subst v. rewrite <- Hv.
        rewrite (patch_handler_found b t body updates date s E Hu Ht Ho).
        intros x [<-|[]]. exact Ho.
      * rewrite (patch_handler_not_found b v body updates date s E Hnone).
        intros x [].
    + rewrite (patch_handler_invalid b v body date s E). intros x [].
  - (* DELETE /:id *)
    set (v := req_param "id" params).
    destruct (owned_row_dec v b s) as [(t & Ht & Hv & Ho)|Hnone].
    + subst v. rewrite <- Hv.
      destruct (delete_handler_found b t s Hu Ht Ho) as (l1 & l2 & _ & ->).
      intros x [].
    + rewrite (delete_handler_not_found b v s Hnone). intros x [].
  - (* DELETE /completed *)
    rewrite delete_completed_handler_run. intros x [].
Qed.

Lemma step_confined (h : Handler) (c : Context) (s : Store) :
  unique_ids s -> c_user c = Some b ->
  confined_to b s (respond (run_handler h c) s).
Proof.
  intros Hu Hb. split.
  - now apply step_returns_own.
  - now apply step_others_untouched.
Qed.

Lemma todoRoutes_confined (req : Request) (uuid : string) (date : Z) (s : Store) :
  unique_ids s -> req_user req = Some b ->
  confined_to b s (respond (todoRoutes req uuid date) s).
Proof.
  intros Hu Hb.
  destruct (todoRoutes_cases req uuid date b Hb) as [(h & c & Hc & _ & ->)| ->].
  - now apply step_confined.
  - split; [intros x []|reflexivity].
Qed.

Lemma confined_keeps_foreign_row (s : Store) (out : Response * Store) (t : Todo) :
  confined_to b s out -> In t s -> userId t <> user_id b ->
  ~ In t (returned_todos (fst out)) /\ In t (snd out).
Proof.
  intros [Hret Hsame] Ht Ho. split.
  - intros Hin. apply Ho. now apply Hret.
  - assert (Hin : In t (filter (not_owned_by b) s)).
    { apply filter_In. split; [assumption|].
      apply negb_true_iff. now apply eq_userId_false. }
    rewrite <- Hsame in Hin. now apply filter_In in Hin.
Qed.

End OwnershipFacts.

(** C2: in every reachable table, a row owned by user A (the owner is the
    creator: Create writes the caller's id, and no handler assigns [userId]
    afterwards) is out of reach of any other user B.  Whichever of the five
    handlers B invokes, with any parameters, and whichever request B sends
    through the router: the row is not among the rows returned, it is still
    in the table and unchanged, every returned row is B's, and the rows that
    are not B's are the same rows in the same order as before. *)
Theorem ownership_isolation (s : Store) (a b : User) (t : Todo) :
  reachable s -> user_id a <> user_id b ->
  In t s -> userId t = user_id a ->
  (forall h c, c_user c = Some b ->
     let out := respond (run_handler h c) s in
     ~ In t (returned_todos (fst out)) /\ In t (snd out) /\ confined_to b s out)
  /\ (forall req uuid date, req_user req = Some b ->
     let out := respond (todoRoutes req uuid date) s in
     ~ In t (returned_todos (fst out)) /\ In t (snd out) /\ confined_to b s out).
Proof.
  intros Hr Hab Ht Ho. apply reachable_unique_ids in Hr.
  assert (Ho' : userId t <> user_id b) by congruence.
  split.
  - intros h c Hc out.
    assert (Hconf : confined_to b s out) by now apply step_confined.
    destruct (confined_keeps_foreign_row b s out t Hconf Ht Ho'). tauto.
  - intros req uuid date Hreq out.
    assert (Hconf : confined_to b s out) by now apply todoRoutes_confined.
    destruct (confined_keeps_foreign_row b s out t Hconf Ht Ho'). tauto.
Qed.

Lemma ownership_isolation_witness :
  let t := mkTodo "3f2a" "alice" "buy milk" true 1700000000 1700000040 in
  (forall h c, c_user c = Some bob ->
     let out := respond (run_handler h c) after_complete in
     ~ In t (returned_todos (fst out)) /\ In t (snd out)
     /\ confined_to bob after_complete out)
  /\ (forall req uuid date, req_user req = Some bob ->
     let out := respond (todoRoutes req uuid date) after_complete in
     ~ In t (returned_todos (fst out)) /\ In t (snd out)
     /\ confined_to bob after_complete out).
Proof.
  apply (ownership_isolation after_complete alice bob
           (mkTodo "3f2a" "alice" "buy milk" true 1700000000 1700000040)).
  - apply reachable_step, reachable_step, reachable_empty.
  - simpl. discriminate.
  - vm_compute. left. reflexivity.
  - reflexivity.
Defined.

(** ** Timestamps *)

Section ClockFacts.

Lemma to_seconds_mono (d d' : Z) : d <= d' -> to_seconds d <= to_seconds d'.
Proof. intros H. unfold to_seconds. apply Z.div_le_mono; lia. Qed.

Lemma step_timestamps (clock : Z) (h : Handler) (c : Context) (s : Store) :
  clock <= c_date c ->
  (forall t, In t s ->
     createdAt t <= updatedAt t /\ updatedAt t <= to_seconds clock) ->
  forall t, In t (snd (respond (run_handler h c) s)) ->
     createdAt t <= updatedAt t /\ updatedAt t <= to_seconds (c_date c).
Proof.
  intros Hclock Hinv. apply to_seconds_mono in Hclock.
  assert (Hold : forall t, In t s ->
            createdAt t <= updatedAt t /\ updatedAt t <= to_seconds (c_date c)).
  { intros t Ht. destruct (Hinv t Ht). lia. }
  destruct (step_cases h c s) as
    [E | [(u & title & _ & _ & E) | [(u & upd & t0 & _ & _ & _ & E)
       | [(u & t0 & _ & _ & _ & E) | (u & _ & E)]]]]; rewrite E.
  - assumption.
  - intros t Ht. apply in_app_or in Ht. destruct Ht as [Ht|[<-|[]]].
    + now apply Hold.
    + simpl. lia.
  - intros t Ht. apply in_map_iff in Ht. destruct Ht as (r & <- & Hr).
    destruct (eq_id (id t0) r); [|now apply Hold].
    simpl. destruct (Hinv r Hr). lia.
  - intros t Ht. apply filter_In in Ht. now apply Hold.
  - intros t Ht. apply filter_In in Ht. now apply Hold.
Qed.

End ClockFacts.

(** Under a clock that never moves backwards at all, no timestamp is
    later than the latest reading either. *)
Lemma timestamps_bounded_by_clock (clock : Z) (s : Store) :
  reachable_at clock s ->
  forall t, In t s ->
    createdAt t <= updatedAt t /\ updatedAt t <= to_seconds clock.
Proof.
  induction 1 as [clock|clock s h c _ IH Hclock].
  - intros t [].
  - now apply (step_timestamps clock).
Qed.

Section BirthFacts.

Lemma Todo_eq_dec (a b : Todo) : {a = b} + {a <> b}.
Proof.
  decide equality; auto using string_dec, bool_dec, Z.eq_dec.
Qed.

Lemma step_born_rows (births : Births) (h : Handler) (c : Context) (s : Store) :
  born_rows births s ->
  (forall t date0,
      updated_by h c s t -> born_at births (id t) = Some date0 ->
      date0 <= c_date c) ->
  born_rows (births_after births h c s) (snd (respond (run_handler h c) s)).
Proof.
  intros [Hu Hrows] Hclock.
  pose proof (step_unique_ids h c s Hu) as Hu'.
  split; [exact Hu'|].
  unfold births_after, updated_by in *.
  pose proof (step_cases h c s) as Hc. cbv zeta in Hc.
  set (s' := snd (respond (run_handler h c) s)) in *.
  destruct Hc as
    [E | [(u & text & _ & Hf & E) | [(u & upd & t0 & _ & Ht0 & _ & E)
       | [(u & t0 & _ & _ & _ & E) | (u & _ & E)]]]].
  - (* nothing written *)
    rewrite E, Nat.ltb_irrefl. exact Hrows.
  - (* a row created *)
    assert (El : (List.length s <? List.length s')%nat = true).
    { apply Nat.ltb_lt. rewrite E, length_app. simpl. lia. }
    rewrite El. intros t Ht. rewrite E in Ht. apply in_app_or in Ht.
    destruct Ht as [Ht|[<-|[]]].
    + destruct (Hrows t Ht) as (date0 & Hb & Hc' & Hle).
      exists date0. split; [|tauto]. cbn [born_at].
      destruct (String.eqb (c_uuid c) (id t)) eqn:Eq; [|exact Hb].
      apply String.eqb_eq in Eq. exfalso. apply Hf. rewrite Eq. now apply in_map.
    + exists (c_date c). cbn [born_at id createdAt updatedAt].
      rewrite String.eqb_refl. repeat split. lia.
  - (* a row updated *)
    assert (El : (List.length s <? List.length s')%nat = false).
    { apply Nat.ltb_ge. rewrite E, length_map. lia. }
    rewrite El. intros t' Ht'.
    assert (Hin' := Ht'). rewrite E in Ht'. apply in_map_iff in Ht'.
    destruct Ht' as (r & Er & Hr).
    destruct (eq_id (id t0) r) eqn:Eid; [|subst t'; now apply Hrows].
    destruct (Hrows r Hr) as (date0 & Hb & Hc' & Hle).
    assert (Eidr : id t' = id r) by (subst t'; reflexivity).
    exists date0. rewrite Eidr. split; [exact Hb|].
    destruct (Todo_eq_dec t' r) as [->|Hne]; [tauto|].
    assert (Hupd : date0 <= c_date c).
    { apply (Hclock r date0); [|exact Hb]. split; [exact Hr|]. split.
      - intros Hr'. apply Hne. now apply (same_id_same_row s' t' r Hu').
      - rewrite E, map_id_set_updates. now apply in_map. }
    apply to_seconds_mono in Hupd. subst t'. simpl. lia.
  - (* a row deleted *)
    assert (El : (List.length s <? List.length s')%nat = false).
    { apply Nat.ltb_ge. rewrite E. apply filter_length_le. }
    rewrite El. intros t Ht. rewrite E in Ht. apply filter_In in Ht.
    now apply Hrows.
  - (* completed rows deleted *)
    assert (El : (List.length s <? List.length s')%nat = false).
    { apply Nat.ltb_ge. rewrite E. apply filter_length_le. }
    rewrite El. intros t Ht. rewrite E in Ht. apply filter_In in Ht.
    now apply Hrows.
Qed.

Lemma reachable_born_rows (births : Births) (s : Store) :
  reachable_born births s -> born_rows births s.
Proof.
  induction 1 as [|births s h c _ IH Hclock].
  - split; [constructor | intros t []].
  - now apply step_born_rows.
Qed.

Lemma reachable_born_reachable (births : Births) (s : Store) :
  reachable_born births s -> reachable s.
Proof. induction 1; now constructor. Qed.

(** A clock that never moves backwards at all is a special case. *)
Lemma reachable_at_born (clock : Z) (s : Store) :
  reachable_at clock s ->
  exists births,
    reachable_born births s
    /\ forall v date0, born_at births v = Some date0 -> date0 <= clock.
Proof.
  induction 1 as [clock|clock s h c _ (births & Hb & Hle) Hclock].
  - exists []. split; [constructor | discriminate].
  - exists (births_after births h c s). split.
    + constructor; [assumption|]. intros t date0 _ Hborn.
      specialize (Hle _ _ Hborn). lia.
    + intros v date0. unfold births_after.
      destruct (List.length s <? _)%nat; cbn [born_at].
      * destruct (String.eqb (c_uuid c) v).
        -- intros [= <-]. lia.
        -- intros Hborn. specialize (Hle _ _ Hborn). lia.
      * intros Hborn. specialize (Hle _ _ Hborn). lia.
Qed.

End BirthFacts.

(** C8: when the clock does not move backwards between the creation of a
    row and an update of that row, every row of every reachable table has
    [createdAt <= updatedAt].  (Create writes the same instant to both, and
    Update writes the current reading to [updatedAt] and leaves [createdAt]
    alone.) *)
Theorem updatedAt_not_before_createdAt (births : Births) (s : Store) :
  reachable_born births s ->
  forall t, In t s -> createdAt t <= updatedAt t.
Proof.
  intros Hr t Ht. apply reachable_born_rows in Hr.
  destruct Hr as [_ Hrows]. destruct (Hrows t Ht) as (date0 & _ & _ & Hle).
  exact Hle.
Qed.

Lemma updatedAt_not_before_createdAt_witness :
  (exists births, reachable_born births clock_set_back_table)
  /\ clock_set_back_table
     = [ mkTodo "3f2a" "alice" "buy milk" false 1700000200 1700000200;
         mkTodo "51be" "bob" "file taxes" true 1700000100 1700000150 ]
  /\ createdAt (mkTodo "51be" "bob" "file taxes" true 1700000100 1700000150)
     <= updatedAt (mkTodo "51be" "bob" "file taxes" true 1700000100 1700000150).
Proof.
  assert (Hr : exists births, reachable_born births clock_set_back_table).
  { eexists. unfold clock_set_back_table.
    apply reachable_born_step; [apply reachable_born_step;
      [apply reachable_born_step; [apply reachable_born_start|]|]|].
    - intros t date0 [[] _].
    - intros t date0 (Hin & Hout & _). exfalso. apply Hout.
      vm_compute in Hin. vm_compute. tauto.
    - intros t date0 (Hin & Hout & _) Hborn.
      vm_compute in Hin. destruct Hin as [<-|[<-|[]]].
      + exfalso. apply Hout. vm_compute. tauto.
      + vm_compute in Hborn. injection Hborn as <-. vm_compute. discriminate. }
  split; [exact Hr|]. split; [vm_compute; reflexivity|].
  destruct Hr as [births Hr].
  apply (updatedAt_not_before_createdAt births clock_set_back_table Hr).
  vm_compute. tauto.
Defined.

(** The hypothesis on the clock is needed: a clock that is set back between
    the creation of a row and its update leaves [updatedAt < createdAt]. *)
Example clock_set_back_breaks_order :
  let late_create :=
    mkContext (Some alice) [] (JObj [("title", JStr "buy milk")])
              "3f2a" 1700000040250 in
  let early_update :=
    mkContext (Some alice) [("id", "3f2a")] (JObj [("completed", JBool true)])
              "c0de" 1700000000500 in
  let s := snd (respond (run_handler PatchId early_update)
                  (snd (respond (run_handler PostRoot late_create) []))) in
  reachable s
  /\ s = [mkTodo "3f2a" "alice" "buy milk" true 1700000040 1700000000].
Proof.
  split.
  - apply reachable_step, reachable_step, reachable_empty.
  - vm_compute. reflexivity.
Qed.

(** ** Deleting the completed rows *)

Section DeleteCompletedFacts.

Variable u : User.

(** The handler of [/completed], when invoked, answers 200 and removes the
    caller's completed rows and no other row. *)
Lemma delete_completed_handler_removes (s : Store) :
  exists s',
    respond (delete_completed_handler (Some u)) s = (c_json SuccessTrue 200, s')
    /\ (forall t, In t s' <->
                  In t s /\ ~ (userId t = user_id u /\ completed t = true)).
Proof.
  eexists. split; [apply delete_completed_handler_run|].
  intros t. rewrite filter_In, negb_true_iff, andb_false_iff.
  rewrite <- eq_userId_true, <- eq_completed_true.
  destruct (eq_userId (user_id u) t), (eq_completed true t);
    intuition discriminate.
Qed.

(** The router gives DELETE /todos/completed to the handler of [/:id], with
    [id = "completed"]. *)
Lemma delete_completed_request_routed_to_id (body : json) (uuid : string)
    (date : Z) :
  todoRoutes (mkRequest DELETE ["completed"] (Some u) body) uuid date
  = delete_handler (Some u) "completed".
Proof. reflexivity. Qed.

Lemma delete_completed_request_not_found (body : json) (uuid : string)
    (date : Z) (s : Store) :
  (forall t, In t s -> id t = "completed" -> userId t <> user_id u) ->
  respond (todoRoutes (mkRequest DELETE ["completed"] (Some u) body) uuid date) s
  = (c_json (ErrorMessage "Todo not found") 404, s).
Proof.
  intros Hnone. rewrite delete_completed_request_routed_to_id.
  now apply delete_handler_not_found.
Qed.

End DeleteCompletedFacts.

(** C1: what the code does with DELETE /todos/completed.  Alice creates
    "buy milk" and marks it completed; her request DELETE /todos/completed
    is then answered 404 "Todo not found" and removes nothing: the list she
    gets afterwards still has the completed row. *)
Theorem delete_completed_request_answers_404 :
  let todo := mkTodo "3f2a" "alice" "buy milk" false 1700000000 1700000000 in
  let done := mkTodo "3f2a" "alice" "buy milk" true 1700000000 1700000040 in
  serve milk_session []
  = ([ c_json (TodoObject (Some todo)) 201;
       c_json (TodoObject (Some done)) 200;
       c_json (ErrorMessage "Todo not found") 404;
       c_json (TodoArray [done]) 200 ],
     [done]).
Proof. vm_compute. reflexivity. Qed.

(** ** Where the rows of a table come from *)

Section ProvenanceFacts.

Lemma z_string_valid (v : json) (text : string) :
  z_string_min1_max500 v = Some text ->
  v = JStr text /\ (1 <= String.length text <= 500)%nat.
Proof.
  destruct v as [| | |str| |]; try discriminate. unfold z_string_min1_max500.
  destruct (1 <=? String.length str)%nat eqn:Hlo; [|discriminate].
  destruct (String.length str <=? 500)%nat eqn:Hhi; [|discriminate].
  intros [= <-]. apply Nat.leb_le in Hlo, Hhi. now repeat split.
Qed.

Lemma createTodoSchema_valid (body : json) (text : string) :
  createTodoSchema body = Some text ->
  exists fields, body = JObj fields
    /\ get_field "title" fields = Some (JStr text)
    /\ (1 <= String.length text <= 500)%nat.
Proof.
  destruct body as [| | | | |fields]; try discriminate. simpl.
  destruct (get_field "title" fields) as [v|] eqn:Ef; [|discriminate].
  intros E. apply z_string_valid in E. destruct E as [-> Hlen].
  now exists fields.
Qed.

Lemma updateTodoSchema_title_valid (body : json) (updates : Updates) (v : string) :
  updateTodoSchema body = Some updates -> upd_title updates = Some v ->
  (1 <= String.length v <= 500)%nat.
Proof.
  destruct body as [| | | | |fields]; try discriminate. unfold updateTodoSchema.
  destruct (get_field "title" fields) as [vt|]; simpl.
  - destruct (z_string_min1_max500 vt) as [text|] eqn:Et; simpl; [|discriminate].
    destruct (z_optional z_boolean (get_field "completed" fields)); [|discriminate].
    intros [= <-]. simpl. intros [= <-]. now apply z_string_valid in Et.
  - destruct (z_optional z_boolean (get_field "completed" fields)); [|discriminate].
    intros [= <-]. discriminate.
Qed.

(** A row of the table after an invocation is a row from before, or the row
    a validated Create wrote, or a row from before with a validated patch
    applied. *)
Lemma step_rows (h : Handler) (c : Context) (s : Store) (t' : Todo) :
  In t' (snd (respond (run_handler h c) s)) ->
  In t' s
  \/ (exists u text,
        c_user c = Some u /\ createTodoSchema (c_body c) = Some text
        /\ ~ In (c_uuid c) (map id s)
        /\ t' = created_todo u text (c_uuid c) (c_date c))
  \/ (exists updates t,
        updateTodoSchema (c_body c) = Some updates
        /\ In t s /\ t' = set_updates updates (c_date c) t).
Proof.
  destruct c as [user params body uuid date]. destruct h;
    cbn [run_handler c_user c_params c_body c_uuid c_date].
  - (* GET / *)
    destruct user; simpl; tauto.
  - (* POST / *)
    unfold post_handler, zValidator.
    destruct (createTodoSchema body) as [text|]; [|simpl; tauto].
    destruct user as [u|]; [|simpl; tauto].
    unfold respond, bind, insert_values, select_from_where, ret. simpl.
    destruct (existsb (eq_id uuid) s) eqn:Ex; [simpl; tauto|]. simpl.
    intros Hin. apply in_app_or in Hin. destruct Hin as [Hin|[<-|[]]]; [tauto|].
    right; left. exists u, text. repeat split.
    intros Hdup. apply existsb_eq_id in Hdup. congruence.
  - (* PATCH /:id *)
    unfold patch_handler, zValidator.
    destruct (updateTodoSchema body) as [updates|]; [|simpl; tauto].
    destruct user as [u|]; [|simpl; tauto].
    unfold respond, bind, select_from_where, update_set_where, ret. simpl.
    destruct (filter _ s) as [|t0 rest] eqn:Ef; [simpl; tauto|]. simpl.
    clear Ef. intros Hin. apply in_map_iff in Hin. destruct Hin as (r & Er & Hr).
    destruct (eq_id (req_param "id" params) r); [|subst; tauto].
    right; right. exists updates, r. now repeat split.
  - (* DELETE /:id *)
    unfold delete_handler.
    destruct user as [u|]; [|simpl; tauto].
    unfold respond, bind, select_from_where, delete_where, ret. simpl.
    destruct (filter _ s) as [|t0 rest] eqn:Ef; simpl; [tauto|].
    intros Hin. apply filter_In in Hin. tauto.
  - (* DELETE /completed *)
    destruct user as [u|]; simpl; [|tauto].
    intros Hin. apply filter_In in Hin. tauto.
Qed.

End ProvenanceFacts.

(** ** Invariants of the table *)

(** X1: in every reachable table every title has a length from 1 to 500:
    Create and Update both validate a title before they write it, and no
    other handler writes one. *)
Theorem reachable_titles_valid (s : Store) :
  reachable s -> forall t, In t s -> valid_title t.
Proof.
  induction 1 as [|s h c _ IH]; [intros t []|].
  intros t' Hin. apply step_rows in Hin.
  destruct Hin as [Hin | [(u & text & _ & E & _ & ->) | (upd & t & E & Ht & ->)]].
  - now apply IH.
  - apply createTodoSchema_valid in E. destruct E as (fields & _ & _ & Hlen).
    exact Hlen.
  - unfold valid_title. simpl. destruct (upd_title upd) as [v|] eqn:Ev.
    + now apply (updateTodoSchema_title_valid (c_body c) upd v).
    + now apply IH.
Qed.

Lemma reachable_titles_valid_witness :
  reachable after_complete
  /\ valid_title (mkTodo "3f2a" "alice" "buy milk" true 1700000000 1700000040).
Proof.
  assert (Hr : reachable after_complete)
    by apply reachable_step, reachable_step, reachable_empty.
  split; [assumption|].
  apply (reachable_titles_valid after_complete Hr).
  vm_compute. left. reflexivity.
Defined.

(** X2: in every reachable table a row is determined by its [id]: two rows
    with the same [id] are the same row (and the same entry of the table). *)
Theorem reachable_rows_unique_by_id (s : Store) :
  reachable s ->
  NoDup (map id s)
  /\ forall t1 t2, In t1 s -> In t2 s -> id t1 = id t2 -> t1 = t2.
Proof.
  intros Hr. apply reachable_unique_ids in Hr. split; [exact Hr|].
  intros t1 t2 H1 H2 E. now apply (same_id_same_row s t1 t2).
Qed.

Lemma reachable_rows_unique_by_id_witness :
  reachable after_complete
  /\ NoDup (map id after_complete)
  /\ forall t1 t2, In t1 after_complete -> In t2 after_complete ->
                   id t1 = id t2 -> t1 = t2.
Proof.
  assert (Hr : reachable after_complete)
    by apply reachable_step, reachable_step, reachable_empty.
  split; [assumption|]. exact (reachable_rows_unique_by_id after_complete Hr).
Defined.

(** ** Requests without a user *)

(** X3: a handler invoked without a user never touches the table and
    returns no row.  POST with a body its schema rejects, and PATCH with a
    body its schema rejects, are answered 400: the validator runs before the
    handler looks at the user.  Every other invocation without a user is
    answered 401 "Unauthorized". *)
Theorem no_user_no_effect (h : Handler) (params : list (string * string))
    (body : json) (uuid : string) (date : Z) (s : Store) :
  let out := respond (run_handler h (mkContext None params body uuid date)) s in
  let rejected :=
    (h = PostRoot /\ createTodoSchema body = None)
    \/ (h = PatchId /\ updateTodoSchema body = None) in
  snd out = s
  /\ returned_todos (fst out) = []
  /\ (rejected -> fst out = c_json ValidationIssues 400)
  /\ (~ rejected -> fst out = c_json (ErrorMessage "Unauthorized") 401)
  /\ (fst out = c_json ValidationIssues 400
      \/ fst out = c_json (ErrorMessage "Unauthorized") 401).
Proof.
  cbv zeta. unfold run_handler, post_handler, patch_handler, zValidator.
  cbn [c_user c_params c_body c_uuid c_date].
  destruct h;
    try destruct (createTodoSchema body) eqn:Ec;
    try destruct (updateTodoSchema body) eqn:Eu;
    simpl; (split; [reflexivity|]); (split; [reflexivity|]);
    (split; [|split]);
    try (intros [[Hh Hs]|[Hh Hs]]; (discriminate || reflexivity));
    try (intros _; reflexivity);
    try (now left); try (now right);
    intros Hn; exfalso; apply Hn; (now left) || (now right).
Qed.

(** ** Responses and the table *)

Section ResponseFacts.

Lemma first_selected_in (p : Todo -> bool) (s : Store) (x : Todo) :
  hd_error (limit 1 (filter p s)) = Some x -> In x s /\ p x = true.
Proof.
  unfold limit. destruct (filter p s) as [|y rest] eqn:E; simpl; [discriminate|].
  intros [= <-]. apply filter_In. rewrite E. now left.
Qed.

End ResponseFacts.

(** X4: the rows a response carries are rows of the table as the request
    leaves it: List returns rows of the table, Create and Update return the
    row as it is stored after the write. *)
Theorem returned_rows_are_stored (h : Handler) (c : Context) (s : Store) (x : Todo) :
  In x (returned_todos (fst (respond (run_handler h c) s))) ->
  In x (snd (respond (run_handler h c) s)).
Proof.
  destruct c as [user params body uuid date]. destruct h;
    cbn [run_handler c_user c_params c_body c_uuid c_date].
  - (* GET / *)
    destruct user as [u|]; simpl; [|tauto]. intros Hin.
    apply (Permutation_in _ (order_by_desc_createdAt_perm _)) in Hin.
    now apply filter_In in Hin.
  - (* POST / *)
    unfold post_handler, zValidator.
    destruct (createTodoSchema body) as [text|]; [|simpl; tauto].
    destruct user as [u|]; [|simpl; tauto].
    unfold respond, bind, insert_values, select_from_where, ret. simpl.
    destruct (existsb (eq_id uuid) s); [simpl; tauto|].
    unfold returned_todos. simpl.
    destruct (hd_error _) as [y|] eqn:E; [|intros []].
    apply first_selected_in in E. intros [<-|[]]. tauto.
  - (* PATCH /:id *)
    unfold patch_handler, zValidator.
    destruct (updateTodoSchema body) as [updates|]; [|simpl; tauto].
    destruct user as [u|]; [|simpl; tauto].
    unfold respond, bind, select_from_where, update_set_where, ret. simpl.
    destruct (filter _ s) as [|t0 rest]; [simpl; tauto|].
    unfold returned_todos. simpl.
    destruct (hd_error _) as [y|] eqn:E; [|intros []].
    apply first_selected_in in E. intros [<-|[]]. tauto.
  - (* DELETE /:id *)
    unfold delete_handler.
    destruct user as [u|]; [|simpl; tauto].
    unfold respond, bind, select_from_where, delete_where, ret. simpl.
    destruct (filter _ s) as [|t0 rest]; simpl; tauto.
  - (* DELETE /completed *)
    destruct user as [u|]; simpl; tauto.
Qed.

Lemma returned_rows_are_stored_witness :
  In (mkTodo "3f2a" "alice" "buy milk" true 1700000000 1700000040)
     (snd (respond (run_handler PatchId alice_completes) after_create)).
Proof.
  apply (returned_rows_are_stored PatchId alice_completes after_create).
  vm_compute. left. reflexivity.
Defined.

(** ** Outcomes of Update *)

Section UpdateOutcomeFacts.

Lemma select_owned_empty_iff (s : Store) (v : string) (u : User) :
  filter (and_ (eq_id v) (eq_userId (user_id u))) s = []
  <-> ~ exists t, In t s /\ id t = v /\ userId t = user_id u.
Proof.
  split.
  - intros E (t & Ht & Hv & Ho).
    assert (Hin : In t (filter (and_ (eq_id v) (eq_userId (user_id u))) s)).
    { apply filter_In. split; [assumption|]. unfold and_.
      apply andb_true_iff. split; [now apply eq_id_true | now apply eq_userId_true]. }
    rewrite E in Hin. destruct Hin.
  - intros Hno. apply select_owned_none. intros t Ht Hv Ho. apply Hno. now exists t.
Qed.

End UpdateOutcomeFacts.

(** X5: PATCH /todos/:id by an authenticated caller.  A body the schema
    rejects is answered 400 whatever the [id], before any lookup.  For an
    accepted body the answer is 404 "Todo not found" exactly when the caller
    owns no row with that [id] (none exists, or it is somebody else's), and
    200 otherwise; on 400 and on 404 the table is left as it was. *)
Theorem update_outcomes (u : User) (v : string) (body : json) (date : Z)
    (s : Store) :
  let out := respond (patch_handler (Some u) v body date) s in
  (updateTodoSchema body = None -> out = (c_json ValidationIssues 400, s))
  /\ (updateTodoSchema body <> None ->
      (status (fst out) = 404
       <-> ~ exists t, In t s /\ id t = v /\ userId t = user_id u)
      /\ (status (fst out) = 404 ->
          out = (c_json (ErrorMessage "Todo not found") 404, s))
      /\ (status (fst out) = 404 \/ status (fst out) = 200)).
Proof.
  cbv zeta. split; [apply patch_handler_invalid|].
  unfold patch_handler, zValidator.
  destruct (updateTodoSchema body) as [updates|]; [intros _|congruence].
  unfold respond, bind, select_from_where, update_set_where, ret. simpl.
  pose proof (select_owned_empty_iff s v u) as Hiff.
  destruct (filter (and_ (eq_id v) (eq_userId (user_id u))) s) as [|t0 rest];
    simpl.
  - split; [|split]; [|reflexivity|now left].
    split; [intros _; now apply Hiff | reflexivity].
  - split; [|split]; [|discriminate|now right].
    split; [discriminate|]. intros Hno. apply Hiff in Hno. discriminate.
Qed.

(** X6: whoever calls Update and whatever the arguments, the table keeps
    its rows in place: the same [id]s in the same order, each with the owner
    and the creation time it had; and a row whose [id] is not the one named
    in the request is not changed at all. *)
Theorem update_keeps_identity (user : option User) (v : string) (body : json)
    (date : Z) (s : Store) :
  let s' := snd (respond (patch_handler user v body date) s) in
  map id s' = map id s
  /\ map userId s' = map userId s
  /\ map createdAt s' = map createdAt s
  /\ filter (fun r => negb (eq_id v r)) s' = filter (fun r => negb (eq_id v r)) s.
Proof.
  cbv zeta. unfold patch_handler, zValidator.
  destruct (updateTodoSchema body) as [updates|]; [|simpl; tauto].
  destruct user as [u|]; [|simpl; tauto].
  unfold respond, bind, select_from_where, update_set_where, ret. simpl.
  destruct (filter _ s) as [|t0 rest]; simpl; [tauto|].
  repeat split.
  - apply map_id_set_updates.
  - rewrite map_map. apply map_ext. intros r. now destruct (eq_id v r).
  - rewrite map_map. apply map_ext. intros r. now destruct (eq_id v r).
  - apply filter_map_fixed.
    + intros r _. destruct (eq_id v r) eqn:E; [|now rewrite E].
      unfold eq_id in *. simpl. now rewrite E.
    + intros r _ Hr. apply negb_true_iff in Hr. now rewrite Hr.
Qed.

(** ** Outcomes of Create *)

(** X7: POST /todos by an authenticated caller.  The body is accepted
    exactly when it is an object whose [title] is a string of length 1 to
    500; a body that is not an object, has no [title], or has a [title] that
    is not a string is answered 400 and nothing is stored. *)
Theorem create_accepts_exactly (u : User) (body : json) (uuid : string)
    (date : Z) (s : Store) :
  (forall text,
      createTodoSchema body = Some text
      <-> exists fields, body = JObj fields
            /\ get_field "title" fields = Some (JStr text)
            /\ (1 <= String.length text <= 500)%nat)
  /\ (createTodoSchema body = None ->
      respond (todoRoutes (mkRequest POST [] (Some u) body) uuid date) s
      = (c_json ValidationIssues 400, s))
  /\ (createTodoSchema body <> None ->
      status (fst (respond (todoRoutes (mkRequest POST [] (Some u) body)
                              uuid date) s)) <> 400).
Proof.
  split; [|split].
  - intros text. split; [apply createTodoSchema_valid|].
    intros (fields & -> & Hf & Hlen). simpl. rewrite Hf.
    now apply z_string_accepts.
  - intros E. change (todoRoutes _ uuid date)
      with (post_handler (Some u) body uuid date).
    now apply post_handler_invalid.
  - intros E. change (todoRoutes _ uuid date)
      with (post_handler (Some u) body uuid date).
    destruct (createTodoSchema body) as [text|] eqn:Es; [|congruence].
    destruct (in_dec string_dec uuid (map id s)) as [Hdup|Hfresh].
    + rewrite (post_handler_duplicate u body text uuid date s Es Hdup).
      discriminate.
    + rewrite (post_handler_fresh u body text uuid date s Es Hfresh).
      discriminate.
Qed.

(** X8: Create never overwrites or duplicates a row.  When the identifier
    is already the [id] of a row the insert throws: the answer is 500 and the
    table is unchanged.  Whoever calls and whatever the arguments, the table
    after Create is the table before, or the table before with one row
    appended whose [id] no row had. *)
Theorem create_appends_or_nothing (user : option User) (body : json)
    (uuid : string) (date : Z) (s : Store) :
  let out := respond (post_handler user body uuid date) s in
  (forall u, user = Some u -> createTodoSchema body <> None ->
             In uuid (map id s) ->
             out = (c_json InternalServerErrorText 500, s))
  /\ (snd out = s
      \/ exists t, snd out = (s ++ [t])%list /\ id t = uuid
                   /\ ~ In uuid (map id s) /\ status (fst out) = 201).
Proof.
  cbv zeta. split.
  - intros u -> E Hdup.
    destruct (createTodoSchema body) as [text|] eqn:Es; [|congruence].
    now apply (post_handler_duplicate u body text).
  - unfold post_handler, zValidator.
    destruct (createTodoSchema body) as [text|]; [|now left].
    destruct user as [u|]; [|now left].
    unfold respond, bind, insert_values, select_from_where, ret. simpl.
    destruct (existsb (eq_id uuid) s) eqn:Ex; [now left|]. simpl.
    right. eexists. repeat split.
    intros Hdup. apply existsb_eq_id in Hdup. congruence.
Qed.

(** ** The handler of [/completed] *)

Section FilterFacts.

Lemma filter_filter_and {A} (p q : A -> bool) (l : list A) :
  filter p (filter q l) = filter (fun x => p x && q x) l.
Proof.
  induction l as [|a l IH]; simpl; [reflexivity|].
  destruct (q a); simpl; rewrite IH; [|now rewrite andb_false_r].
  rewrite andb_true_r. reflexivity.
Qed.

End FilterFacts.

(** X9: the handler registered for [/completed], when it is invoked for a
    user, answers 200; afterwards the caller's rows are the caller's active
    rows from before, in their order, the rows of everybody else are as they
    were, and a second invocation finds nothing to remove. *)
Theorem delete_completed_handler_idempotent (u : User) (s : Store) :
  let out := respond (delete_completed_handler (Some u)) s in
  fst out = c_json SuccessTrue 200
  /\ filter (eq_userId (user_id u)) (snd out)
     = filteredTodos (filter (eq_userId (user_id u)) s) active
  /\ filter (not_owned_by u) (snd out) = filter (not_owned_by u) s
  /\ respond (delete_completed_handler (Some u)) (snd out) = out.
Proof.
  cbv zeta. rewrite !delete_completed_handler_run. simpl.
  split; [reflexivity|]. split; [|split].
  - unfold filteredTodos. rewrite !filter_filter_and. apply filter_ext.
    intros t. unfold eq_completed.
    destruct (eq_userId (user_id u) t), (completed t); reflexivity.
  - apply filter_filter_absorb. intros t _ Hn.
    unfold not_owned_by in Hn. apply negb_true_iff in Hn. now rewrite Hn.
  - f_equal. apply filter_all. intros t Ht. apply filter_In in Ht. tauto.
Qed.

(** ** Which requests reach which handler *)

Section DispatchFacts.

Lemma find_route_cases (method : Method) (path : list string) :
  match find_route todoRoutes_table method path with
  | Some (h, params) =>
      match h with
      | GetRoot => method = GET /\ path = []
      | PostRoot => method = POST /\ path = []
      | PatchId =>
          method = PATCH
          /\ exists v, path = [v] /\ v <> EmptyString /\ params = [("id", v)]
      | DeleteId =>
          method = DELETE
          /\ exists v, path = [v] /\ v <> EmptyString /\ params = [("id", v)]
      | DeleteCompleted => False
      end
  | None => True
  end.
Proof.
  destruct method; destruct path as [|v [|w path]]; cbn -[String.eqb];
    try exact I; try (split; reflexivity);
    destruct (String.eqb v EmptyString) eqn:Ev; cbn -[String.eqb];
    try exact I;
    try (split; [reflexivity|]; exists v; apply String.eqb_neq in Ev;
         repeat split; assumption);
    destruct (String.eqb "completed" v) eqn:Ec; try exact I.
  apply String.eqb_eq in Ev, Ec. subst v. discriminate.
Qed.

End DispatchFacts.

(** X10: a DELETE request with a one-segment path is answered by the
    handler of [/:id] with that segment as [id], the segment [completed]
    included; every other DELETE path is answered 404 and leaves the table
    alone.  So no DELETE request is answered by the handler of
    [/completed]. *)
Theorem delete_requests_go_to_id_handler (u : User) (path : list string)
    (body : json) (uuid : string) (date : Z) :
  todoRoutes (mkRequest DELETE path (Some u) body) uuid date
  = match path with
    | [v] => if String.eqb v EmptyString
             then ret (c_json NotFoundText 404)
             else delete_handler (Some u) v
    | _ => ret (c_json NotFoundText 404)
    end.
Proof.
  unfold todoRoutes, authenticatedOnly.
  cbn [req_user req_method req_path req_body].
  destruct path as [|v [|w path]]; cbn -[String.eqb]; try reflexivity.
  - destruct (String.eqb v EmptyString) eqn:Ev; cbn -[String.eqb]; [|reflexivity].
    apply String.eqb_eq in Ev. subst v. reflexivity.
  - destruct (String.eqb v EmptyString); cbn -[String.eqb];
      destruct (String.eqb "completed" v); reflexivity.
Qed.

(** X11: only three kinds of request can change the table: POST on the
    root, and PATCH or DELETE on a one-segment path, each sent by an
    authenticated caller.  Any other request (every GET among them) leaves
    the table as it was. *)
Theorem only_writes_change_table (req : Request) (uuid : string) (date : Z)
    (s : Store) :
  snd (respond (todoRoutes req uuid date) s) <> s ->
  req_user req <> None
  /\ ((req_method req = POST /\ req_path req = [])
      \/ ((req_method req = PATCH \/ req_method req = DELETE)
          /\ exists v, req_path req = [v] /\ v <> EmptyString)).
Proof.
  unfold todoRoutes, authenticatedOnly. destruct (req_user req) as [u|].
  - pose proof (find_route_cases (req_method req) (req_path req)) as Hc.
    destruct (find_route todoRoutes_table (req_method req) (req_path req))
      as [[h params]|]; [|intros H; now contradiction H].
    intros Hne. split; [discriminate|]. destruct h.
    + now contradiction Hne.
    + left. exact Hc.
    + right. destruct Hc as (Hm & v & Hp & Hv & _). split; [now left|]. now exists v.
    + right. destruct Hc as (Hm & v & Hp & Hv & _). split; [now right|]. now exists v.
    + destruct Hc.
  - intros H. now contradiction H.
Qed.

Lemma only_writes_change_table_witness :
  snd (respond (todoRoutes (mkRequest POST [] (Some alice)
                              (createMutation_json "buy milk"))
                           "3f2a" 1700000000500) []) <> []
  /\ Some alice <> None
  /\ ((POST = POST /\ @nil string = [])
      \/ ((POST = PATCH \/ POST = DELETE)
          /\ exists v, [] = [v] /\ v <> EmptyString)).
Proof.
  assert (Hne : snd (respond (todoRoutes (mkRequest POST [] (Some alice)
                                 (createMutation_json "buy milk"))
                              "3f2a" 1700000000500) []) <> [])
    by (vm_compute; discriminate).
  split; [exact Hne|].
  exact (only_writes_change_table
           (mkRequest POST [] (Some alice) (createMutation_json "buy milk"))
           "3f2a" 1700000000500 [] Hne).
Defined.

(** ** Toggling *)

Section ToggleFacts.

Lemma filter_length_perm {A} (p : A -> bool) (l l' : list A) :
  Permutation l l' -> List.length (filter p l) = List.length (filter p l').
Proof.
  induction 1 as [|x l l' _ IH|x y l|l l' l'' _ IH1 _ IH2]; simpl.
  - reflexivity.
  - destruct (p x); simpl; now rewrite IH.
  - destruct (p x), (p y); reflexivity.
  - now rewrite IH1.
Qed.

(** The caller's list, counted by [p], splits around a row of the caller's. *)
Lemma listed_count_split (u : User) (p : Todo -> bool) (l1 l2 : list Todo)
    (t : Todo) :
  userId t = user_id u ->
  List.length (filter p (order_by_desc_createdAt
                           (filter (eq_userId (user_id u)) (l1 ++ t :: l2))))
  = (List.length (filter p (filter (eq_userId (user_id u)) (l1 ++ l2)))
     + (if p t then 1 else 0))%nat.
Proof.
  intros Ho.
  rewrite (filter_length_perm p _ _ (order_by_desc_createdAt_perm _)).
  assert (Et : eq_userId (user_id u) t = true) by now apply eq_userId_true.
  rewrite !filter_app. cbn [filter]. rewrite Et. cbn [filter].
  rewrite !length_app. destruct (p t); cbn [List.length]; lia.
Qed.

End ToggleFacts.

(** X12: [handleToggle] on a row the caller owns.  The patch it sends is
    accepted and flips [completed], keeping the title and every other row;
    in the list the caller gets afterwards one task has moved between the
    active and the completed count; and toggling the returned row once more
    brings [completed] back to where it was. *)
Theorem toggle_flips_and_moves_one (u : User) (todo : Todo) (date date' : Z)
    (s : Store) :
  unique_ids s -> In todo s -> userId todo = user_id u ->
  let flipped := mkTodo (id todo) (userId todo) (title todo)
                        (negb (completed todo)) (createdAt todo)
                        (to_seconds date) in
  let restored := mkTodo (id todo) (userId todo) (title todo)
                         (completed todo) (createdAt todo)
                         (to_seconds date') in
  let listed table :=
    returned_todos (fst (respond (get_handler (Some u)) table)) in
  exists l1 l2 s',
    s = (l1 ++ todo :: l2)%list /\ s' = (l1 ++ flipped :: l2)%list
    /\ respond (patch_handler (Some u) (fst (handleToggle todo))
                  (snd (handleToggle todo)) date) s
       = (c_json (TodoObject (Some flipped)) 200, s')
    /\ (if completed todo
        then activeTodoCount (listed s') = S (activeTodoCount (listed s))
             /\ S (completedTodoCount (listed s')) = completedTodoCount (listed s)
        else S (activeTodoCount (listed s')) = activeTodoCount (listed s)
             /\ completedTodoCount (listed s') = S (completedTodoCount (listed s)))
    /\ respond (patch_handler (Some u) (fst (handleToggle flipped))
                  (snd (handleToggle flipped)) date') s'
       = (c_json (TodoObject (Some restored)) 200, (l1 ++ restored :: l2)%list).
Proof.
  intros Hu Ht Ho flipped restored listed.
  destruct (in_split _ _ Ht) as (l1 & l2 & ->).
  exists l1, l2, (l1 ++ flipped :: l2)%list.
  split; [reflexivity|]. split; [reflexivity|].
  assert (Hu' : unique_ids (l1 ++ flipped :: l2)%list).
  { unfold unique_ids in *. rewrite map_app in *. exact Hu. }
  split; [|split].
  - unfold handleToggle. cbn [fst snd].
    now rewrite (patch_handler_owned u l1 l2 todo _
                   (mkUpdates None (Some (negb (completed todo)))) date).
  - unfold listed, activeTodoCount, completedTodoCount.
    rewrite !get_handler_run. cbn [fst returned_todos payload c_json].
    rewrite !(listed_count_split u _ l1 l2) by assumption.
    cbn [completed flipped]. destruct (completed todo); simpl; lia.
  - unfold handleToggle. cbn [fst snd].
    change (id flipped) with (id todo) at 1.
    rewrite (patch_handler_owned u l1 l2 flipped _
               (mkUpdates None (Some (negb (completed flipped)))) date');
      try assumption; try reflexivity.
    unfold set_updates, restored. simpl. now rewrite negb_involutive.
Qed.

Lemma toggle_flips_and_moves_one_witness :
  let flipped := mkTodo (id bread) (userId bread) (title bread)
                        (negb (completed bread)) (createdAt bread)
                        (to_seconds 1700000300999) in
  let restored := mkTodo (id bread) (userId bread) (title bread)
                         (completed bread) (createdAt bread)
                         (to_seconds 1700000400000) in
  let listed table :=
    returned_todos (fst (respond (get_handler (Some alice)) table)) in
  exists l1 l2 s',
    sample_store = (l1 ++ bread :: l2)%list /\ s' = (l1 ++ flipped :: l2)%list
    /\ respond (patch_handler (Some alice) (fst (handleToggle bread))
                  (snd (handleToggle bread)) 1700000300999) sample_store
       = (c_json (TodoObject (Some flipped)) 200, s')
    /\ (if completed bread
        then activeTodoCount (listed s')
             = S (activeTodoCount (listed sample_store))
             /\ S (completedTodoCount (listed s'))
                = completedTodoCount (listed sample_store)
        else S (activeTodoCount (listed s'))
             = activeTodoCount (listed sample_store)
             /\ completedTodoCount (listed s')
                = S (completedTodoCount (listed sample_store)))
    /\ respond (patch_handler (Some alice) (fst (handleToggle flipped))
                  (snd (handleToggle flipped)) 1700000400000) s'
       = (c_json (TodoObject (Some restored)) 200, (l1 ++ restored :: l2)%list).
Proof.
  apply (toggle_flips_and_moves_one alice bread 1700000300999 1700000400000
           sample_store).
  - unfold unique_ids. simpl.
    repeat constructor; simpl; intuition discriminate.
  - simpl. tauto.
  - reflexivity.
Defined.

(** ** More on the filtered views *)

Section ViewOrderFacts.

Lemma filter_strongly_sorted {A} (R : A -> A -> Prop) (p : A -> bool)
    (l : list A) :
  StronglySorted R l -> StronglySorted R (filter p l).
Proof.
  induction 1 as [|a l _ IH Hall]; simpl; [constructor|].
  destruct (p a); [|assumption]. constructor; [assumption|].
  rewrite Forall_forall in *. intros x Hx. apply Hall.
  apply filter_In in Hx. tauto.
Qed.

End ViewOrderFacts.

(** X13: a view of a list that is most recent first is most recent first
    (so every tab shows the server's order), no view is longer than the
    list, and applying the same filter to a view changes nothing while the
    opposite filter empties it. *)
Theorem filtered_views_keep_order (todos : list Todo) (filter_ : Filter) :
  StronglySorted most_recent_first todos ->
  StronglySorted most_recent_first (filteredTodos todos filter_)
  /\ (List.length (filteredTodos todos filter_) <= List.length todos)%nat
  /\ filteredTodos (filteredTodos todos filter_) filter_
     = filteredTodos todos filter_
  /\ filteredTodos (filteredTodos todos active) completed_ = []
  /\ filteredTodos (filteredTodos todos completed_) active = [].
Proof.
  intros Hs. unfold filteredTodos. split; [|split; [|split; [|split]]].
  - now apply filter_strongly_sorted.
  - apply filter_length_le.
  - apply filter_all. intros t Ht. apply filter_In in Ht. tauto.
  - apply filter_none. intros t Ht. apply filter_In in Ht.
    destruct Ht as [_ Ht]. now apply negb_true_iff in Ht.
  - apply filter_none. intros t Ht. apply filter_In in Ht.
    destruct Ht as [_ Ht]. now rewrite Ht.
Qed.

Lemma filtered_views_keep_order_witness :
  StronglySorted most_recent_first (filteredTodos [bread; taxes; milk] active)
  /\ (List.length (filteredTodos [bread; taxes; milk] active)
      <= List.length [bread; taxes; milk])%nat
  /\ filteredTodos (filteredTodos [bread; taxes; milk] active) active
     = filteredTodos [bread; taxes; milk] active
  /\ filteredTodos (filteredTodos [bread; taxes; milk] active) completed_ = []
  /\ filteredTodos (filteredTodos [bread; taxes; milk] completed_) active = [].
Proof.
  apply (filtered_views_keep_order [bread; taxes; milk] active).
  repeat constructor; unfold most_recent_first; simpl; lia.
Defined.

(** ** Submitting a new title *)

Section TrimFacts.

Variable ws : ascii -> bool.

Lemma trimStart_length (s : string) :
  (String.length (trimStart ws s) <= String.length s)%nat.
Proof.
  induction s as [|ch s IH]; simpl; [lia|].
  destruct (ws ch); simpl; lia.
Qed.

Lemma trimEnd_length (s : string) :
  (String.length (trimEnd ws s) <= String.length s)%nat.
Proof.
  induction s as [|ch s IH]; simpl; [lia|].
  destruct (trimEnd ws s); [destruct (ws ch)|]; simpl in *; lia.
Qed.

Lemma trim_length (s : string) :
  (String.length (trim ws s) <= String.length s)%nat.
Proof.
  unfold trim. pose proof (trimEnd_length (trimStart ws s)).
  pose proof (trimStart_length s). lia.
Qed.

Lemma trimStart_head (s : string) (ch : ascii) (rest : string) :
  trimStart ws s = String ch rest -> ws ch = false.
Proof.
  induction s as [|c s IH]; simpl; [discriminate|].
  destruct (ws c) eqn:E; [assumption|]. intros [= <- _]. exact E.
Qed.

Lemma trimEnd_idempotent (s : string) :
  trimEnd ws (trimEnd ws s) = trimEnd ws s.
Proof.
  induction s as [|ch s IH]; simpl; [reflexivity|].
  destruct (trimEnd ws s) as [|k kept] eqn:E.
  - destruct (ws ch) eqn:Ew; simpl; [reflexivity|]. now rewrite Ew.
  - change (trimEnd ws (String ch (String k kept)))
      with (match trimEnd ws (String k kept) with
            | EmptyString => if ws ch then EmptyString else String ch EmptyString
            | String k' kept' => String ch (String k' kept')
            end).
    now rewrite IH.
Qed.

Lemma trimEnd_head (ch : ascii) (rest : string) :
  ws ch = false -> exists kept, trimEnd ws (String ch rest) = String ch kept.
Proof.
  intros E. simpl. destruct (trimEnd ws rest) as [|k kept].
  - rewrite E. now exists EmptyString.
  - now exists (String k kept).
Qed.

Lemma trim_idempotent (s : string) : trim ws (trim ws s) = trim ws s.
Proof.
  unfold trim. destruct (trimStart ws s) as [|ch rest] eqn:E; [reflexivity|].
  pose proof (trimStart_head s ch rest E) as Hch.
  destruct (trimEnd_head ch rest Hch) as (kept & Ek).
  rewrite Ek. simpl trimStart. rewrite Hch. rewrite <- Ek.
  apply trimEnd_idempotent.
Qed.

End TrimFacts.

(** X14: [handleAddTodo] submits nothing when the input trims to the empty
    string.  Otherwise it submits the trimmed input, which is not empty, is
    no longer than the input and is left alone by a further trim; the server
    accepts the posted body exactly when the trimmed input has at most 500
    code units, so an input of at most 500 is never refused. *)
Theorem handleAddTodo_meets_schema (ws : ascii -> bool) (newTodo : string) :
  (handleAddTodo ws newTodo = None <-> trim ws newTodo = EmptyString)
  /\ forall text, handleAddTodo ws newTodo = Some text ->
       text = trim ws newTodo
       /\ trim ws text = text
       /\ (1 <= String.length text <= String.length newTodo)%nat
       /\ (createTodoSchema (createMutation_json text) = Some text
           <-> (String.length text <= 500)%nat)
       /\ (createTodoSchema (createMutation_json text) = None
           <-> (500 < String.length text)%nat).
Proof.
  unfold handleAddTodo. split.
  - destruct (trim ws newTodo); split; congruence.
  - intros text Hsub.
    assert (Et : text = trim ws newTodo /\ text <> EmptyString).
    { destruct (trim ws newTodo); [discriminate|]. injection Hsub as <-.
      split; [reflexivity|discriminate]. }
    destruct Et as [Et Hne].
    assert (Hlo : (1 <= String.length text)%nat).
    { destruct text; [congruence|]. simpl. lia. }
    pose proof (trim_length ws newTodo) as Hle. rewrite <- Et in Hle.
    split; [assumption|]. split; [rewrite Et; apply trim_idempotent|].
    split; [lia|].
    unfold createMutation_json, createTodoSchema. cbn [get_field].
    change (String.eqb "title" "title") with true. cbn iota.
    unfold z_string_min1_max500.
    apply Nat.leb_le in Hlo. rewrite Hlo. cbn [andb].
    destruct (String.length text <=? 500)%nat eqn:Hhi.
    + apply Nat.leb_le in Hhi. split; split; intros; try reflexivity;
        try assumption; try discriminate; lia.
    + apply Nat.leb_gt in Hhi. split; split; intros; try reflexivity;
        try assumption; try discriminate; lia.
Qed.

(** ** Listing after a write *)

Section ListAfterFacts.

Lemma order_by_append_latest (l : list Todo) (t : Todo) :
  (forall x, In x l -> createdAt x < createdAt t) ->
  order_by_desc_createdAt (l ++ [t]) = t :: order_by_desc_createdAt l.
Proof.
  unfold order_by_desc_createdAt. rewrite fold_right_app. simpl.
  induction l as [|x l IH]; simpl; intros Hlt; [reflexivity|].
  rewrite IH by (intros y Hy; apply Hlt; now right). simpl.
  assert (E : (createdAt t <=? createdAt x) = false).
  { apply Z.leb_gt. apply Hlt. now left. }
  now rewrite E.
Qed.

End ListAfterFacts.

(** X15: when the created row is strictly more recent than every row the
    caller already has, the list the caller gets after Create is the created
    row followed by the list from before. *)
Theorem created_row_listed_first (u : User) (fields : list (string * json))
    (text : string) (uuid : string) (date : Z) (s : Store) :
  get_field "title" fields = Some (JStr text) ->
  (1 <= String.length text <= 500)%nat ->
  ~ In uuid (map id s) ->
  (forall t, In t s -> userId t = user_id u -> createdAt t < to_seconds date) ->
  let s' := snd (respond (post_handler (Some u) (JObj fields) uuid date) s) in
  returned_todos (fst (respond (get_handler (Some u)) s'))
  = created_todo u text uuid date
    :: returned_todos (fst (respond (get_handler (Some u)) s)).
Proof.
  intros Hf Hlen Hfresh Hlate s'.
  assert (Es : s' = (s ++ [created_todo u text uuid date])%list).
  { unfold s'. rewrite (post_handler_fresh u (JObj fields) text uuid date s);
      [reflexivity | | assumption].
    simpl. rewrite Hf. now apply z_string_accepts. }
  rewrite Es, !get_handler_run. cbn [fst returned_todos payload c_json].
  rewrite filter_app. cbn [filter].
  assert (Et : eq_userId (user_id u) (created_todo u text uuid date) = true)
    by now apply eq_userId_true.
  rewrite Et. apply order_by_append_latest.
  intros x Hx. apply filter_In in Hx. destruct Hx as [Hx Ho].
  apply eq_userId_true in Ho. simpl. now apply Hlate.
Qed.

Lemma created_row_listed_first_witness :
  let s' := snd (respond (post_handler (Some alice)
                            (JObj [("title", JStr "water plants")])
                            "77aa" 1700000200123) sample_store) in
  returned_todos (fst (respond (get_handler (Some alice)) s'))
  = created_todo alice "water plants" "77aa" 1700000200123
    :: returned_todos (fst (respond (get_handler (Some alice)) sample_store)).
Proof.
  apply (created_row_listed_first alice [("title", JStr "water plants")]
           "water plants" "77aa" 1700000200123 sample_store).
  - reflexivity.
  - vm_compute. lia.
  - simpl. intros [H|[H|[H|[]]]]; discriminate.
  - intros t [<-|[<-|[<-|[]]]] Ho; try discriminate Ho; vm_compute; reflexivity.
Defined.

(** X16: after DELETE /todos/:id has removed a row the caller owns, the
    list the caller gets is the list from before without that row: the list
    from before is a rearrangement of the row and the new list, and the new
    list has no row with that [id]. *)
Theorem delete_then_list (u : User) (t : Todo) (s : Store) :
  unique_ids s -> In t s -> userId t = user_id u ->
  let s' := snd (respond (delete_handler (Some u) (id t)) s) in
  let listed table :=
    returned_todos (fst (respond (get_handler (Some u)) table)) in
  Permutation (listed s) (t :: listed s')
  /\ forall x, In x (listed s') -> id x <> id t.
Proof.
  intros Hu Ht Ho s' listed.
  destruct (delete_handler_found u t s Hu Ht Ho) as (l1 & l2 & Es & Er).
  assert (Es' : s' = (l1 ++ l2)%list) by (unfold s'; now rewrite Er).
  unfold listed. rewrite Es', Es, !get_handler_run.
  cbn [fst returned_todos payload c_json].
  assert (Et : eq_userId (user_id u) t = true) by now apply eq_userId_true.
  split.
  - eapply perm_trans; [apply order_by_desc_createdAt_perm|].
    rewrite !filter_app. cbn [filter]. rewrite Et.
    eapply perm_trans; [apply Permutation_sym, Permutation_middle|].
    apply perm_skip. rewrite <- filter_app.
    apply Permutation_sym, order_by_desc_createdAt_perm.
  - intros x Hx.
    apply (Permutation_in _ (order_by_desc_createdAt_perm _)) in Hx.
    apply filter_In in Hx. destruct Hx as [Hx _].
    rewrite Es in Hu. destruct (unique_ids_middle l1 l2 t Hu) as (H1 & H2 & _).
    intros E. apply in_app_or in Hx.
    assert (Ex : eq_id (id t) x = true) by now apply eq_id_true.
    destruct Hx as [Hx|Hx]; [rewrite (H1 x Hx) in Ex | rewrite (H2 x Hx) in Ex];
      discriminate.
Qed.

Lemma delete_then_list_witness :
  let s' := snd (respond (delete_handler (Some alice) (id milk)) sample_store) in
  let listed table :=
    returned_todos (fst (respond (get_handler (Some alice)) table)) in
  Permutation (listed sample_store) (milk :: listed s')
  /\ forall x, In x (listed s') -> id x <> id milk.
Proof.
  apply (delete_then_list alice milk sample_store).
  - unfold unique_ids. simpl.
    repeat constructor; simpl; intuition discriminate.
  - simpl. tauto.
  - reflexivity.
Defined.

(** ** Sessions *)

Section SessionFacts.

Lemma todoRoutes_reachable (req : Request) (uuid : string) (date : Z)
    (s : Store) :
  reachable s -> reachable (snd (respond (todoRoutes req uuid date) s)).
Proof.
  intros Hr. destruct (req_user req) as [b|] eqn:Hb.
  - destruct (todoRoutes_cases req uuid date b Hb) as [(h & c & _ & _ & ->)| ->].
    + now constructor.
    + exact Hr.
  - unfold todoRoutes, authenticatedOnly. rewrite Hb. exact Hr.
Qed.

Lemma serve_reachable (requests : list (Request * (string * Z))) (s : Store) :
  reachable s ->
  reachable (snd (serve requests s))
  /\ List.length (fst (serve requests s)) = List.length requests.
Proof.
  revert s. induction requests as [|[req [uuid date]] rest IH]; intros s Hr.
  - split; [exact Hr|reflexivity].
  - simpl. pose proof (todoRoutes_reachable req uuid date s Hr) as Hr'.
    destruct (respond (todoRoutes req uuid date) s) as [r s1]. simpl in Hr'.
    destruct (IH s1 Hr') as [IHr IHl].
    destruct (serve rest s1) as [rs s2]. simpl in *. split; [assumption|].
    now rewrite IHl.
Qed.

End SessionFacts.

(** X17: whatever requests are sent through the router, by whichever users
    and in whatever order, starting from the empty table: every request gets
    one response, and the table left behind is a reachable one, in which no
    two rows share an [id]. *)
Theorem session_table_reachable (requests : list (Request * (string * Z))) :
  List.length (fst (serve requests [])) = List.length requests
  /\ reachable (snd (serve requests []))
  /\ unique_ids (snd (serve requests [])).
Proof.
  destruct (serve_reachable requests [] reachable_empty) as [Hr Hl].
  split; [assumption|]. split; [assumption|]. now apply reachable_unique_ids.
Qed.
